(** * ros_sugar.launch.launcher: a shallow embedding of [Launcher]

    The development follows [src/ros_sugar/launch/launcher.py].  Python
    objects are records, dictionaries are insertion-ordered association
    lists (the launcher iterates over them and takes [list(d.keys())]),
    [set(...)] is a [gset], exceptions are values of [Exception] and a
    method that mutates [self] is a computation in the state-and-error
    monad [M]. *)

From Stdlib Require Import ZArith.
From stdpp Require Import base option list strings gmap.

Open Scope string_scope.
Open Scope list_scope.

(** ** Python values that reach the launcher *)

(** Constants that occur as default values and as action arguments. *)
Inductive PyConst :=
| PyNone
| PyBool (b : bool)
| PyInt (z : Z)
| PyStr (s : string).

#[global] Instance PyConst_eq_dec : EqDecision PyConst.
Proof. solve_decision. Defined.

(** [inspect.Parameter]: [param_default = None] stands for
    [inspect.Parameter.empty]. *)
Inductive ParameterKind :=
| POSITIONAL_ONLY | POSITIONAL_OR_KEYWORD | VAR_POSITIONAL
| KEYWORD_ONLY | VAR_KEYWORD.

#[global] Instance ParameterKind_eq_dec : EqDecision ParameterKind.
Proof. solve_decision. Defined.

Record SigParameter := {
  param_name : string;
  kind : ParameterKind;
  param_default : option PyConst
}.

#[global] Instance SigParameter_eq_dec : EqDecision SigParameter.
Proof. solve_decision. Defined.

(** A method of a component as [getattr] and [inspect.signature] see it:
    its name, the parameters of the bound method ([self] excluded) and
    the names of the decorators it carries. *)
Record Method := {
  method_name : string;
  parameters : list SigParameter;
  decorators : list string
}.

#[global] Instance Method_eq_dec : EqDecision Method.
Proof. solve_decision. Defined.

Inductive ComponentRunType := TIMED | EVENT | SERVER | ACTION_SERVER.

#[global] Instance ComponentRunType_eq_dec : EqDecision ComponentRunType.
Proof. solve_decision. Defined.

(** [BaseComponent] is declared in [ros_sugar.core.component]; the record
    holds the attributes the launcher reads.  [comp_id] is the identity of
    the Python object: two references to one component are equal records,
    and [==] on components (they define no [__eq__]) is equality of
    records.  The attributes the launcher writes live in [ComponentState],
    in the launcher's [heap]. *)
Record BaseComponent := {
  comp_id : nat;
  node_name : string;
  run_type : ComponentRunType;
  methods : list Method;
  managed_entity : bool;                       (* issubclass(cls, ManagedEntity) *)
  launch_cmd_args : list string;
  _external_processors : list (string * list string)  (* key, processors' __name__ *)
}.

#[global] Instance BaseComponent_eq_dec : EqDecision BaseComponent.
Proof. solve_decision. Defined.

(** Modelled from the spec: [has_decorator] of [ros_sugar.utils], the
    capability check "the operation is a registered handler operation":
    a callable has a decorator when it was declared with it; the first
    argument is the list of the decorators of the callable. *)
Definition has_decorator (method_decorators : list string) (decorator_name : string)
    : bool :=
  bool_decide (decorator_name ∈ method_decorators).

(** [getattr(component, name)] restricted to methods; [None] is
    [AttributeError]. *)
Definition getattr_component (c : BaseComponent) (attr : string) : option Method :=
  list_find (λ m, method_name m = attr) (methods c) ≫= λ im, Some im.2.

(** Modelled from the spec: the property [BaseComponent.fallbacks], "the
    component's declared fallback-eligible operations": the names of the
    methods that carry the decorator [component_fallback]. *)
Definition fallbacks (c : BaseComponent) : list string :=
  method_name <$> filter (λ m, has_decorator (decorators m) "component_fallback" = true) (methods c).

(** [Event] is declared in [ros_sugar.core.event]; events are dictionary
    keys by object identity, [event_id]. *)
Record Event := {
  event_id : nat;
  name : string
}.

#[global] Instance Event_eq_dec : EqDecision Event.
Proof. solve_decision. Defined.

(** Objects a bound method can belong to. *)
Inductive Object :=
| ComponentObject (c : BaseComponent)
| LauncherObject
| MonitorObject
| OtherObject (id : nat).

#[global] Instance Object_eq_dec : EqDecision Object.
Proof. solve_decision. Defined.

(** [action.executable], a bound method: the object it is bound to and
    its name.  The launcher reads [__self__] for component actions only,
    and those are made from bound methods. *)
Record Executable := {
  __self__ : Object;
  __name__ : string
}.

#[global] Instance Executable_eq_dec : EqDecision Executable.
Proof. solve_decision. Defined.

(** [Action] is declared in [ros_sugar.core.action]; the record holds the
    attributes the launcher reads.  [parent_component] is the node name the
    action declares as its owner (read for component actions only). *)
Record Action := {
  executable : Executable;
  args : list PyConst;
  kwargs : list (string * PyConst);
  action_name : string;
  parent_component : string;
  component_action : bool;
  monitor_action : bool
}.

#[global] Instance Action_eq_dec : EqDecision Action.
Proof. solve_decision. Defined.

(** [launch.action.Action], an entity of the ROS launch system; the
    launcher passes it through untouched. *)
Inductive ROSLaunchAction := RosAction (descr : string).

#[global] Instance ROSLaunchAction_eq_dec : EqDecision ROSLaunchAction.
Proof. solve_decision. Defined.

(** [Union[Action, ROSLaunchAction]]; [isinstance(a, ROSLaunchAction)] is
    the constructor test. *)
Inductive AnyAction :=
| ROS (r : ROSLaunchAction)
| Sugar (a : Action).

#[global] Instance AnyAction_eq_dec : EqDecision AnyAction.
Proof. solve_decision. Defined.

(** A value of an events/actions dictionary: one action or a list. *)
Inductive RawAction :=
| Single (a : AnyAction)
| Many (l : list AnyAction).

(** ** f-strings and exceptions

    A formatted message is the list of its literal pieces and of the
    values interpolated between them. *)
Inductive Fragment :=
| Lit (s : string)
| FStr (s : string)                              (* {x}, x a str *)
| FStrList (l : list string)                     (* {x}, x a list of str *)
| FObject (o : Object)                           (* {x}, x an object *)
| FMethod (c : BaseComponent) (m : Method)       (* {x}, x a bound method *)
| FParameters (ps : list SigParameter).          (* {x}, x a signature's parameters *)

Definition fstring := list Fragment.

Inductive Exception :=
| ValueError (msg : fstring)
| InvalidAction (msg : fstring)
| AttributeError (msg : fstring)
| TypeError (msg : fstring)
| IndexError (msg : fstring)
| OverflowError (msg : fstring)
| ModuleNotFoundError (msg : fstring)
| RuntimeError (msg : fstring).

(** The message of an exception mentions a string when one of its
    interpolated values is that string, or a list that holds it. *)
Definition mentions (s : string) (msg : fstring) : Prop :=
  FStr s ∈ msg ∨ ∃ l, FStrList l ∈ msg ∧ s ∈ l.


Definition message (e : Exception) : fstring :=
  match e with
  | ValueError m | InvalidAction m | AttributeError m | TypeError m
  | IndexError m | OverflowError m | ModuleNotFoundError m | RuntimeError m => m
  end.

(** ** Launch entities *)

(** [lifecycle_msgs.msg.Transition], the transition identifiers. *)
Module Transition.
Definition TRANSITION_CREATE : Z := 0.
Definition TRANSITION_CONFIGURE : Z := 1.
Definition TRANSITION_CLEANUP : Z := 2.
Definition TRANSITION_ACTIVATE : Z := 3.
Definition TRANSITION_DEACTIVATE : Z := 4.
End Transition.

(** The supervisor node, [ros_sugar.core.monitor.Monitor], as the
    launcher builds it: the record of the constructor's arguments. *)
Record Monitor := {
  components_names : list string;
  enable_health_status_monitoring : bool;
  events_actions : list (Event * list Action);
  events_to_emit : option (list Event);
  services_components : list BaseComponent;
  action_servers_components : list BaseComponent;
  activate_on_start : list BaseComponent
}.

Inductive LaunchNode :=
| MonitorNode (m : Monitor)
| ComponentNode (c : BaseComponent).

(** What a launch description is made of. *)
#[warnings="-register-all"]
Inductive LaunchEntity :=
| PushRosNamespace (namespace : string)
| LifecycleTransition (lifecycle_node_names : list string) (transition_ids : list Z)
| LogInfo (msg : fstring)
| Passthrough (r : ROSLaunchAction)
| OpaqueLaunchAction (a : Action) (monitor_node : Monitor)
| MethodLaunchAction (c : BaseComponent) (fname : string)
| ComponentLaunchAction (node : LaunchNode) (namespace : string) (node_name : string)
    (log_level : option Z)
| RegisterEventHandler (internal_event_name : string) (entities : list LaunchEntity)
| LifecycleNodeLaunchAction (package exec_name namespace node_name executable : string)
    (arguments : list string)
| NodeLaunchAction (package exec_name namespace node_name executable : string)
    (arguments : list string)
| GroupAction (l : list LaunchEntity)
| ExecuteProcess (cmd : list string) (pname : string).

(** The transitions a list of entities asks the lifecycle collaborator
    for, in order: every node of a [LifecycleTransition] goes through its
    [transition_ids] from left to right. *)
Definition requested_transitions (es : list LaunchEntity) : list (string * Z) :=
  es ≫= λ e,
    match e with
    | LifecycleTransition nodes ids => nodes ≫= λ n, (λ t, (n, t)) <$> ids
    | _ => []
    end.

(** ** Ordered dictionaries

    A Python [dict] keeps its keys in insertion order; assigning to a key
    that is present keeps its place. *)
Section dict.
Context {K V : Type} `{EqDecision K}.

Fixpoint dict_get (d : list (K * V)) (k : K) : option V :=
  match d with
  | [] => None
  | (k', v) :: d' => if decide (k' = k) then Some v else dict_get d' k
  end.

Fixpoint dict_set (d : list (K * V)) (k : K) (v : V) : list (K * V) :=
  match d with
  | [] => [(k, v)]
  | (k', v') :: d' =>
      if decide (k' = k) then (k, v) :: d' else (k', v') :: dict_set d' k v
  end.

Definition dict_keys (d : list (K * V)) : list K := d.*1.

(** [d.update(items)]. *)
Definition dict_update (d : list (K * V)) (items : list (K * V)) : list (K * V) :=
  foldl (λ acc kv, dict_set acc kv.1 kv.2) d items.

End dict.

(** ** The launcher and the objects it owns *)

(** A fallback policy: an action and a retry budget, [None] for
    unlimited. *)
Record Fallback := {
  fallback_action : Action;
  max_retries : option Z
}.

(** The attributes of a component that the launcher assigns.
    Modelled from the spec: [BaseComponent.on_fail] installs the policy
    of the component, [BaseComponent.configure] applies a configuration
    file; both are declared in [ros_sugar.core.component]. *)
Record ComponentState := {
  comp_config_file : option string;        (* component._config_file *)
  comp_configured : list string;           (* files passed to component.configure *)
  comp_on_fail : option Fallback;          (* set by component.on_fail *)
  comp_events_actions : option (list (Event * list Action))
}.

Definition fresh_component : ComponentState :=
  {| comp_config_file := None; comp_configured := [];
     comp_on_fail := None; comp_events_actions := None |}.

(** A task submitted to the thread pool: the endpoint and the processor
    it serves. *)
Record BridgeTask := {
  sock_file : fstring;
  processor : string
}.

(** [launch.LaunchService] once [run] was called on a description. *)
Record LaunchService := {
  debug : bool;
  launch_description : list LaunchEntity
}.

Record Launcher := {
  _description : list LaunchEntity;
  _namespace : string;
  _config_file : option string;
  __enable_monitoring : bool;
  _launch_group : list LaunchEntity;
  components : list BaseComponent;
  _pkg_executable : list (option string * option string);
  __components_to_activate_on_start : list (BaseComponent * bool);
  _internal_events : option (list Event);
  _internal_event_names : option (list string);
  _monitor_actions : list (Event * list Action);
  _ros_actions : list (Event * list AnyAction);
  _components_actions : list (Event * list Action);
  thread_pool : option (list BridgeTask);
  monitor_node : option Monitor;
  ls : option LaunchService;
  heap : list (BaseComponent * ComponentState)
}.

(** Assignments to the attributes of [self]. *)
Definition set_description (v : list LaunchEntity) (self : Launcher) : Launcher :=
  {| _description := v; _namespace := _namespace self; _config_file := _config_file
     self; __enable_monitoring := __enable_monitoring self; _launch_group :=
     _launch_group self; components := components self; _pkg_executable :=
     _pkg_executable self; __components_to_activate_on_start :=
     __components_to_activate_on_start self; _internal_events := _internal_events self;
     _internal_event_names := _internal_event_names self; _monitor_actions :=
     _monitor_actions self; _ros_actions := _ros_actions self; _components_actions :=
     _components_actions self; thread_pool := thread_pool self; monitor_node :=
     monitor_node self; ls := ls self; heap := heap self |}.

Definition set_launch_group (v : list LaunchEntity) (self : Launcher) : Launcher :=
  {| _description := _description self; _namespace := _namespace self; _config_file :=
     _config_file self; __enable_monitoring := __enable_monitoring self; _launch_group
     := v; components := components self; _pkg_executable := _pkg_executable self;
     __components_to_activate_on_start := __components_to_activate_on_start self;
     _internal_events := _internal_events self; _internal_event_names :=
     _internal_event_names self; _monitor_actions := _monitor_actions self; _ros_actions
     := _ros_actions self; _components_actions := _components_actions self; thread_pool
     := thread_pool self; monitor_node := monitor_node self; ls := ls self; heap := heap
     self |}.

Definition set_components (v : list BaseComponent) (self : Launcher) : Launcher :=
  {| _description := _description self; _namespace := _namespace self; _config_file :=
     _config_file self; __enable_monitoring := __enable_monitoring self; _launch_group
     := _launch_group self; components := v; _pkg_executable := _pkg_executable self;
     __components_to_activate_on_start := __components_to_activate_on_start self;
     _internal_events := _internal_events self; _internal_event_names :=
     _internal_event_names self; _monitor_actions := _monitor_actions self; _ros_actions
     := _ros_actions self; _components_actions := _components_actions self; thread_pool
     := thread_pool self; monitor_node := monitor_node self; ls := ls self; heap := heap
     self |}.

Definition set_pkg_executable (v : list (option string * option string)) (self : Launcher) : Launcher :=
  {| _description := _description self; _namespace := _namespace self; _config_file :=
     _config_file self; __enable_monitoring := __enable_monitoring self; _launch_group
     := _launch_group self; components := components self; _pkg_executable := v;
     __components_to_activate_on_start := __components_to_activate_on_start self;
     _internal_events := _internal_events self; _internal_event_names :=
     _internal_event_names self; _monitor_actions := _monitor_actions self; _ros_actions
     := _ros_actions self; _components_actions := _components_actions self; thread_pool
     := thread_pool self; monitor_node := monitor_node self; ls := ls self; heap := heap
     self |}.

Definition set_components_to_activate_on_start (v : list (BaseComponent * bool)) (self : Launcher) : Launcher :=
  {| _description := _description self; _namespace := _namespace self; _config_file :=
     _config_file self; __enable_monitoring := __enable_monitoring self; _launch_group
     := _launch_group self; components := components self; _pkg_executable :=
     _pkg_executable self; __components_to_activate_on_start := v; _internal_events :=
     _internal_events self; _internal_event_names := _internal_event_names self;
     _monitor_actions := _monitor_actions self; _ros_actions := _ros_actions self;
     _components_actions := _components_actions self; thread_pool := thread_pool self;
     monitor_node := monitor_node self; ls := ls self; heap := heap self |}.

Definition set_internal_events (v : option (list Event)) (self : Launcher) : Launcher :=
  {| _description := _description self; _namespace := _namespace self; _config_file :=
     _config_file self; __enable_monitoring := __enable_monitoring self; _launch_group
     := _launch_group self; components := components self; _pkg_executable :=
     _pkg_executable self; __components_to_activate_on_start :=
     __components_to_activate_on_start self; _internal_events := v;
     _internal_event_names := _internal_event_names self; _monitor_actions :=
     _monitor_actions self; _ros_actions := _ros_actions self; _components_actions :=
     _components_actions self; thread_pool := thread_pool self; monitor_node :=
     monitor_node self; ls := ls self; heap := heap self |}.

Definition set_internal_event_names (v : option (list string)) (self : Launcher) : Launcher :=
  {| _description := _description self; _namespace := _namespace self; _config_file :=
     _config_file self; __enable_monitoring := __enable_monitoring self; _launch_group
     := _launch_group self; components := components self; _pkg_executable :=
     _pkg_executable self; __components_to_activate_on_start :=
     __components_to_activate_on_start self; _internal_events := _internal_events self;
     _internal_event_names := v; _monitor_actions := _monitor_actions self; _ros_actions
     := _ros_actions self; _components_actions := _components_actions self; thread_pool
     := thread_pool self; monitor_node := monitor_node self; ls := ls self; heap := heap
     self |}.

Definition set_monitor_actions (v : list (Event * list Action)) (self : Launcher) : Launcher :=
  {| _description := _description self; _namespace := _namespace self; _config_file :=
     _config_file self; __enable_monitoring := __enable_monitoring self; _launch_group
     := _launch_group self; components := components self; _pkg_executable :=
     _pkg_executable self; __components_to_activate_on_start :=
     __components_to_activate_on_start self; _internal_events := _internal_events self;
     _internal_event_names := _internal_event_names self; _monitor_actions := v;
     _ros_actions := _ros_actions self; _components_actions := _components_actions self;
     thread_pool := thread_pool self; monitor_node := monitor_node self; ls := ls self;
     heap := heap self |}.

Definition set_ros_actions (v : list (Event * list AnyAction)) (self : Launcher) : Launcher :=
  {| _description := _description self; _namespace := _namespace self; _config_file :=
     _config_file self; __enable_monitoring := __enable_monitoring self; _launch_group
     := _launch_group self; components := components self; _pkg_executable :=
     _pkg_executable self; __components_to_activate_on_start :=
     __components_to_activate_on_start self; _internal_events := _internal_events self;
     _internal_event_names := _internal_event_names self; _monitor_actions :=
     _monitor_actions self; _ros_actions := v; _components_actions :=
     _components_actions self; thread_pool := thread_pool self; monitor_node :=
     monitor_node self; ls := ls self; heap := heap self |}.

Definition set_components_actions (v : list (Event * list Action)) (self : Launcher) : Launcher :=
  {| _description := _description self; _namespace := _namespace self; _config_file :=
     _config_file self; __enable_monitoring := __enable_monitoring self; _launch_group
     := _launch_group self; components := components self; _pkg_executable :=
     _pkg_executable self; __components_to_activate_on_start :=
     __components_to_activate_on_start self; _internal_events := _internal_events self;
     _internal_event_names := _internal_event_names self; _monitor_actions :=
     _monitor_actions self; _ros_actions := _ros_actions self; _components_actions := v;
     thread_pool := thread_pool self; monitor_node := monitor_node self; ls := ls self;
     heap := heap self |}.

Definition set_thread_pool (v : option (list BridgeTask)) (self : Launcher) : Launcher :=
  {| _description := _description self; _namespace := _namespace self; _config_file :=
     _config_file self; __enable_monitoring := __enable_monitoring self; _launch_group
     := _launch_group self; components := components self; _pkg_executable :=
     _pkg_executable self; __components_to_activate_on_start :=
     __components_to_activate_on_start self; _internal_events := _internal_events self;
     _internal_event_names := _internal_event_names self; _monitor_actions :=
     _monitor_actions self; _ros_actions := _ros_actions self; _components_actions :=
     _components_actions self; thread_pool := v; monitor_node := monitor_node self; ls
     := ls self; heap := heap self |}.

Definition set_monitor_node (v : option Monitor) (self : Launcher) : Launcher :=
  {| _description := _description self; _namespace := _namespace self; _config_file :=
     _config_file self; __enable_monitoring := __enable_monitoring self; _launch_group
     := _launch_group self; components := components self; _pkg_executable :=
     _pkg_executable self; __components_to_activate_on_start :=
     __components_to_activate_on_start self; _internal_events := _internal_events self;
     _internal_event_names := _internal_event_names self; _monitor_actions :=
     _monitor_actions self; _ros_actions := _ros_actions self; _components_actions :=
     _components_actions self; thread_pool := thread_pool self; monitor_node := v; ls :=
     ls self; heap := heap self |}.

Definition set_ls (v : option LaunchService) (self : Launcher) : Launcher :=
  {| _description := _description self; _namespace := _namespace self; _config_file :=
     _config_file self; __enable_monitoring := __enable_monitoring self; _launch_group
     := _launch_group self; components := components self; _pkg_executable :=
     _pkg_executable self; __components_to_activate_on_start :=
     __components_to_activate_on_start self; _internal_events := _internal_events self;
     _internal_event_names := _internal_event_names self; _monitor_actions :=
     _monitor_actions self; _ros_actions := _ros_actions self; _components_actions :=
     _components_actions self; thread_pool := thread_pool self; monitor_node :=
     monitor_node self; ls := v; heap := heap self |}.

Definition set_heap (v : list (BaseComponent * ComponentState)) (self : Launcher) : Launcher :=
  {| _description := _description self; _namespace := _namespace self; _config_file :=
     _config_file self; __enable_monitoring := __enable_monitoring self; _launch_group
     := _launch_group self; components := components self; _pkg_executable :=
     _pkg_executable self; __components_to_activate_on_start :=
     __components_to_activate_on_start self; _internal_events := _internal_events self;
     _internal_event_names := _internal_event_names self; _monitor_actions :=
     _monitor_actions self; _ros_actions := _ros_actions self; _components_actions :=
     _components_actions self; thread_pool := thread_pool self; monitor_node :=
     monitor_node self; ls := ls self; heap := v |}.

(** ** Computations that mutate [self] and may raise

    An exception leaves the mutations made before it in place, so the
    state is returned on both outcomes. *)
Inductive Outcome (A : Type) :=
| Return (a : A)
| Raise (e : Exception).
Arguments Return {A} a.
Arguments Raise {A} e.

Definition M (A : Type) : Type := Launcher → Launcher * Outcome A.

#[global] Instance M_ret : MRet M := λ A a self, (self, Return a).

#[global] Instance M_bind : MBind M := λ A B f m self,
  match m self with
  | (self', Return a) => f a self'
  | (self', Raise e) => (self', Raise e)
  end.

Definition raise {A : Type} (e : Exception) : M A := λ self, (self, Raise e).
Definition read {A : Type} (f : Launcher → A) : M A := λ self, (self, Return (f self)).
Definition assign (f : Launcher → Launcher) : M unit := λ self, (f self, Return tt).
Definition pass : M unit := mret tt.

(** [for x in l: body(x)]. *)
Fixpoint for_each {A : Type} (l : list A) (body : A → M unit) : M unit :=
  match l with
  | [] => pass
  | x :: l' => body x ;; for_each l' body
  end.

(** Truth values of the Python objects the launcher tests. *)
Definition truthy_str (s : option string) : bool :=
  match s with
  | Some s => negb (bool_decide (s = ""))
  | None => false
  end.

Definition truthy_list {A : Type} (l : list A) : bool :=
  match l with [] => false | _ => true end.

Definition truthy_opt_list {A : Type} (l : option (list A)) : bool :=
  match l with Some l => truthy_list l | None => false end.

(** Assignments to the attributes of a component. *)
Definition component_state (self : Launcher) (c : BaseComponent) : ComponentState :=
  default fresh_component (dict_get (heap self) c).

Definition update_component (c : BaseComponent) (f : ComponentState → ComponentState)
    : M unit :=
  assign (λ self, set_heap (dict_set (heap self) c (f (component_state self c))) self).

(** [component._config_file = file; component.configure(file)]. *)
Definition component_configure (c : BaseComponent) (file : string) (set_attr : bool)
    : M unit :=
  update_component c (λ st,
    {| comp_config_file := if set_attr then Some file else comp_config_file st;
       comp_configured := comp_configured st ++ [file];
       comp_on_fail := comp_on_fail st;
       comp_events_actions := comp_events_actions st |}).

(** [component.on_fail(action, max_retries)]. *)
Definition component_on_fail (c : BaseComponent) (action : Action) (retries : option Z)
    : M unit :=
  update_component c (λ st,
    {| comp_config_file := comp_config_file st;
       comp_configured := comp_configured st;
       comp_on_fail := Some {| fallback_action := action; max_retries := retries |};
       comp_events_actions := comp_events_actions st |}).

(** [component.events_actions = d]. *)
Definition component_set_events_actions (c : BaseComponent)
    (d : list (Event * list Action)) : M unit :=
  update_component c (λ st,
    {| comp_config_file := comp_config_file st;
       comp_configured := comp_configured st;
       comp_on_fail := comp_on_fail st;
       comp_events_actions := Some d |}).

(** ** Registration: [add_pkg] *)

(** [Launcher.__update_dict_list]: [dictionary.get(name)] is tested for
    truth, so a key bound to an empty list is treated as absent. *)
Definition __update_dict_list {K V : Type} `{EqDecision K}
    (dictionary : list (K * list V)) (name : K) (value : V) : list (K * list V) :=
  match dict_get dictionary name with
  | Some (x :: l) => dict_set dictionary name ((x :: l) ++ [value])
  | _ => dict_set dictionary name [value]
  end.

(** [l.count(x)] for a list of components and an object [x]. *)
Definition count (components_list : list BaseComponent) (x : Object) : nat :=
  length (filter (λ c, ComponentObject c = x) components_list).

Definition unknown_component_message (condition : Event) (action_object : Object)
    : fstring :=
  [Lit "Invalid action for condition '"; FStr (name condition);
   Lit "'. Action component '"; FObject action_object;
   Lit "' is unknown or not added to Launcher"].

(** The body of the inner loop of
    [Launcher.__rewrite_actions_for_components]. *)
Definition rewrite_action (components_list : list BaseComponent)
    (condition : Event) (action : AnyAction) : M unit :=
  match action with
  | ROS r =>
      assign (λ self,
        set_ros_actions (__update_dict_list (_ros_actions self) condition (ROS r)) self)
  | Sugar a =>
      if component_action a then
        let action_object := __self__ (executable a) in
        if bool_decide (count components_list action_object ≤ 0)%nat then
          raise (InvalidAction (unknown_component_message condition action_object))
        else
          assign (λ self,
            set_components_actions
              (__update_dict_list (_components_actions self) condition a) self)
      else if monitor_action a then
        assign (λ self,
          set_monitor_actions (__update_dict_list (_monitor_actions self) condition a) self)
      else pass
  end.

Definition action_set (raw_action : RawAction) : list AnyAction :=
  match raw_action with
  | Many l => l
  | Single a => [a]
  end.

Definition __rewrite_actions_for_components (components_list : list BaseComponent)
    (actions_dict : list (Event * RawAction)) : M unit :=
  for_each actions_dict (λ item,
    for_each (action_set item.2) (rewrite_action components_list item.1)).

(** [Launcher.add_pkg].  The first call stores the caller's list itself
    in [self.components] and later calls extend it in place; the launcher
    only reads the extended list, which is what the model keeps. *)
Definition add_pkg (components_arg : list BaseComponent)
    (package_name executable_entry_point : option string)
    (events_actions_arg : option (list (Event * RawAction)))
    (multiprocessing activate_all_components_on_start : bool)
    (components_to_activate_on_start : option (list BaseComponent)) : M unit :=
  (if multiprocessing
      && (negb (truthy_str package_name) || negb (truthy_str executable_entry_point))
   then raise (ValueError [Lit "Cannot run in multi-processes without specifying ROS2 'package_name' and 'executable_entry_point'"])
   else pass) ;;
  let package_name := if multiprocessing then package_name else None in
  let executable_entry_point :=
    if multiprocessing then executable_entry_point else None in
  let pairs := replicate (length components_arg) (package_name, executable_entry_point) in
  assign (λ self,
    if truthy_list (components self) then
      set_pkg_executable (_pkg_executable self ++ pairs)
        (set_components (components self ++ components_arg) self)
    else set_pkg_executable pairs (set_components components_arg self)) ;;
  (if truthy_opt_list components_to_activate_on_start then
     assign (λ self,
       set_components_to_activate_on_start
         (dict_update (__components_to_activate_on_start self)
            ((λ c, (c, multiprocessing)) <$> default [] components_to_activate_on_start))
         self)
   else if activate_all_components_on_start then
     assign (λ self,
       set_components_to_activate_on_start
         (dict_update (__components_to_activate_on_start self)
            ((λ c, (c, multiprocessing)) <$> components_arg))
         self)
   else pass) ;;
  enable_monitoring ← read __enable_monitoring ;
  (if truthy_opt_list events_actions_arg && enable_monitoring then
     __rewrite_actions_for_components components_arg (default [] events_actions_arg)
   else pass) ;;
  for_each components_arg (λ component,
    config_file ← read _config_file ;
    if truthy_str config_file then
      component_configure component (default "" config_file) true
    else pass).

(** [Launcher.__init__]. *)
Definition init (namespace : string) (config_file : option string)
    (enable_monitoring : bool) : Launcher :=
  {| _description := [PushRosNamespace namespace];
     _namespace := namespace;
     _config_file := config_file;
     __enable_monitoring := enable_monitoring;
     _launch_group := [];
     components := [];
     _pkg_executable := [];
     __components_to_activate_on_start := [];
     _internal_events := None;
     _internal_event_names := None;
     _monitor_actions := [];
     _ros_actions := [];
     _components_actions := [];
     thread_pool := None;
     monitor_node := None;
     ls := None;
     heap := [] |}.

(** ** Launch action handlers *)

(** A keyword argument that a handler collects and ignores. *)
Inductive KwArg :=
| KwConst (v : PyConst)
| KwComponent (c : BaseComponent).

(** [Launcher.start]: configure + activate. *)
Definition start (self : Launcher) (node_name : string) (_kw : list (string * KwArg))
    : list LaunchEntity :=
  [LifecycleTransition [node_name]
     [Transition.TRANSITION_CONFIGURE; Transition.TRANSITION_ACTIVATE]].

(** [Launcher.stop]: deactivate. *)
Definition stop (self : Launcher) (node_name : string) (_kw : list (string * KwArg))
    : list LaunchEntity :=
  [LifecycleTransition [node_name] [Transition.TRANSITION_DEACTIVATE]].

(** [Launcher.restart]: deactivate + activate. *)
Definition restart (self : Launcher) (node_name : string) (_kw : list (string * KwArg))
    : list LaunchEntity :=
  [LifecycleTransition [node_name]
     [Transition.TRANSITION_DEACTIVATE; Transition.TRANSITION_ACTIVATE]].

(** [Launcher._activate_components_action]. *)
Definition _activate_components_action (self : Launcher) : list LaunchEntity :=
  foldl (λ activation_actions item,
           if (item.2 : bool)
           then activation_actions ++ start self (node_name item.1) []
           else activation_actions ++ [MethodLaunchAction item.1 "start"])
        [] (__components_to_activate_on_start self).

(** ** Fallbacks: [on_fail] *)

(** Modelled from the spec: [Action(method=m)] of [ros_sugar.core.action]
    for a method of a component, "a deferred invocation" whose target is
    that component. *)
Definition Action_of_method (c : BaseComponent) (m : Method) : Action :=
  {| executable := {| __self__ := ComponentObject c; __name__ := method_name m |};
     args := []; kwargs := [];
     action_name := method_name m;
     parent_component := node_name c;
     component_action := true;
     monitor_action := false |}.

(** [any(x.default is inspect.Parameter.empty for x in params.values())]. *)
Definition any_without_default (method_params : list SigParameter) : bool :=
  existsb (λ x, bool_decide (param_default x = None)) method_params.

(** The body of the loop of [Launcher.on_fail]. *)
Definition on_fail_component (fallback_name : string) (retries : option Z)
    (component : BaseComponent) : M unit :=
  if bool_decide (fallback_name ∈ fallbacks component) then
    match getattr_component component fallback_name with
    | Some method =>
        let method_params := parameters method in
        if any_without_default method_params then
          raise (ValueError
            [FMethod component method; Lit " takes "; FParameters method_params;
             Lit " as arguments. Only actions without any arguments or with keyword only arguments can be set as on_fail actions from the launcher. Use component.on_fail to pass specific arguments."])
        else component_on_fail component (Action_of_method component method) retries
    | None =>
        raise (AttributeError [Lit "object has no attribute "; FStr fallback_name])
    end
  else
    raise (ValueError
      [Lit "Non valid action fallback "; FStr fallback_name;
       Lit ": Fallback is not available in component "; FStr (node_name component);
       Lit ". Available component fallbacks are the following methods: '";
       FStrList (fallbacks component); Lit "'"]).

(** [Launcher.on_fail]. *)
Definition on_fail (fallback_name : string) (retries : option Z) : M unit :=
  comps ← read components ;
  for_each comps (on_fail_component fallback_name retries).

(** ** Dispatch of component actions: [_get_action_launch_entity] *)

Inductive ActionHandler := Start | Stop | Restart.

(** What [getattr(self, name)] finds on a launcher. *)
Inductive LauncherAttribute :=
| HandlerMethod (h : ActionHandler)     (* declared with [@action_handler] *)
| OtherAttribute.                        (* another method, a property or a field *)

Definition attribute_decorators (a : LauncherAttribute) : list string :=
  match a with
  | HandlerMethod _ => ["action_handler"]
  | OtherAttribute => []
  end.

(** The methods and properties of the class (private names mangled), the
    fields [__init__] assigns, and what every object has. *)
Definition launcher_methods : list string :=
  ["add_pkg"; "_setup_component_events_handlers"; "_Launcher__update_dict_list";
   "_Launcher__rewrite_actions_for_components"; "_activate_components_action";
   "fallback_rate"; "on_fail"; "_get_action_launch_entity";
   "_setup_internal_events_handlers"; "_setup_monitor_node";
   "_Launcher__listen_for_external_processing"; "_setup_external_processors";
   "_setup_component_in_process"; "_setup_component_in_thread"; "_start_ros_launch";
   "configure"; "add_py_executable"; "add_method"; "bringup"].

Definition launcher_fields : list string :=
  ["_description"; "_namespace"; "_config_file"; "_Launcher__enable_monitoring";
   "_launch_group"; "components"; "_pkg_executable";
   "_Launcher__components_to_activate_on_start"; "_internal_events";
   "_internal_event_names"; "_monitor_actions"; "_ros_actions"; "_components_actions";
   "thread_pool"].

Definition object_attributes : list string :=
  ["__class__"; "__delattr__"; "__dict__"; "__dir__"; "__doc__"; "__eq__"; "__format__";
   "__ge__"; "__getattribute__"; "__getstate__"; "__gt__"; "__hash__"; "__init__";
   "__init_subclass__"; "__le__"; "__lt__"; "__module__"; "__ne__"; "__new__";
   "__reduce__"; "__reduce_ex__"; "__repr__"; "__setattr__"; "__sizeof__"; "__str__";
   "__subclasshook__"; "__weakref__"].

(** [getattr(self, attr)]; [None] is [AttributeError].  [monitor_node] and
    [ls] exist once they were assigned. *)
Definition getattr_launcher (self : Launcher) (attr : string) : option LauncherAttribute :=
  if decide (attr = "start") then Some (HandlerMethod Start)
  else if decide (attr = "stop") then Some (HandlerMethod Stop)
  else if decide (attr = "restart") then Some (HandlerMethod Restart)
  else if bool_decide (attr ∈ launcher_methods ++ launcher_fields ++ object_attributes)
  then Some OtherAttribute
  else if decide (attr = "monitor_node")
  then (if monitor_node self is Some _ then Some OtherAttribute else None)
  else if decide (attr = "ls")
  then (if ls self is Some _ then Some OtherAttribute else None)
  else None.

(** [comp = None; for comp in l: if comp.node_name == parent: break]: the
    value of [comp] after the loop.  The loop variable is assigned before
    the test, and stays bound when the list is exhausted. *)
Fixpoint component_loop (comp : option BaseComponent) (l : list BaseComponent)
    (parent : string) : option BaseComponent :=
  match l with
  | [] => comp
  | c :: l' =>
      if decide (node_name c = parent) then Some c
      else component_loop (Some c) l' parent
  end.

(** The call [_get_action_launch_entity] ends with. *)
Record HandlerCall := {
  call_method : ActionHandler;
  call_args : list PyConst;
  call_kwargs : list (string * PyConst);
  call_node_name : string;
  call_component : BaseComponent
}.

(** [Launcher._get_action_launch_entity] up to its last line: the checks,
    and the call they lead to.  A component object is true ([not comp]
    holds for [None] only). *)
Definition _get_action_launch_entity_call (self : Launcher) (action : Action)
    : Outcome HandlerCall :=
  match getattr_launcher self (action_name action) with
  | Some action_method =>
      if negb (has_decorator (attribute_decorators action_method) "action_handler") then
        Raise (InvalidAction
          [Lit "Requested action method "; FStr (action_name action);
           Lit " is not a valid event handler"])
      else
        match component_loop None (components self) (parent_component action) with
        | None =>
            Raise (InvalidAction
              [Lit "Requested action component "; FStr (parent_component action);
               Lit " is unknown"])
        | Some comp =>
            match action_method with
            | HandlerMethod h =>
                Return {| call_method := h; call_args := args action;
                          call_kwargs := kwargs action;
                          call_node_name := parent_component action;
                          call_component := comp |}
            | OtherAttribute => Raise (TypeError [Lit "object is not callable"])
            end
        end
  | None =>
      Raise (InvalidAction
        [Lit "Requested unavailable component action: "; FStr (parent_component action);
         Lit "."; FStr (action_name action)])
  end.

(** The last line: the handler is called with the positional and keyword
    arguments of the action, followed by the keywords [node_name] and
    [component].  A handler takes [self], [node_name] and any keyword: a
    keyword given twice and a positional argument are [TypeError]s. *)
Definition invoke (self : Launcher) (call : HandlerCall) : Outcome (list LaunchEntity) :=
  if bool_decide ("node_name" ∈ (call_kwargs call).*1 ∨ "component" ∈ (call_kwargs call).*1)
  then Raise (TypeError [Lit "got multiple values for keyword argument"])
  else if truthy_list (call_args call)
  then Raise (TypeError [Lit "got multiple values for argument 'node_name'"])
  else
    let kw := (prod_map id KwConst <$> call_kwargs call)
                ++ [("component", KwComponent (call_component call))] in
    Return (match call_method call with
            | Start => start self (call_node_name call) kw
            | Stop => stop self (call_node_name call) kw
            | Restart => restart self (call_node_name call) kw
            end).

(** [Launcher._get_action_launch_entity]. *)
Definition _get_action_launch_entity (self : Launcher) (action : Action)
    : Outcome (list LaunchEntity) :=
  match _get_action_launch_entity_call self action with
  | Return call => invoke self call
  | Raise e => Raise e
  end.

(** ** Setup and bringup *)

Definition lift {A : Type} (o : Outcome A) : M A := λ self, (self, o).

(** [Launcher._setup_component_events_handlers]. *)
Definition _setup_component_events_handlers (comp : BaseComponent) : M unit :=
  components_actions ← read _components_actions ;
  if negb (truthy_list components_actions) then pass
  else
    let comp_dict :=
      foldl (λ d item,
               foldl (λ d action,
                        if decide (node_name comp = parent_component action)
                        then __update_dict_list d item.1 action else d)
                     d (item.2 : list Action))
            [] components_actions in
    if truthy_list comp_dict then component_set_events_actions comp comp_dict else pass.

(** What one action of an event adds to the entities of its handler, in
    [Launcher._setup_internal_events_handlers]. *)
Definition event_action_entities (self : Launcher) (nodes_in_processes : bool)
    (action : AnyAction) : Outcome (list LaunchEntity) :=
  match action with
  | ROS r => Return [Passthrough r]
  | Sugar a =>
      if component_action a && nodes_in_processes then _get_action_launch_entity self a
      else
        match monitor_node self with
        | Some m => Return [OpaqueLaunchAction a m]
        | None =>
            Raise (AttributeError
              [Lit "'Launcher' object has no attribute 'monitor_node'"])
        end
  end.

(** The loop over the actions of one event: the entities grow at the end. *)
Fixpoint event_entities (self : Launcher) (nodes_in_processes : bool)
    (entities : list LaunchEntity) (actions : list AnyAction)
    : Outcome (list LaunchEntity) :=
  match actions with
  | [] => Return entities
  | action :: rest =>
      match event_action_entities self nodes_in_processes action with
      | Return es => event_entities self nodes_in_processes (entities ++ es) rest
      | Raise e => Raise e
      end
  end.

Definition log_action (event : Event) : LaunchEntity :=
  LogInfo [Lit "GOT TRIGGER FOR EVENT "; FStr (name event)].

(** [Launcher._setup_internal_events_handlers]. *)
Definition _setup_internal_events_handlers (nodes_in_processes : bool) : M unit :=
  ros_actions ← read _ros_actions ;
  if negb (truthy_list ros_actions) then pass
  else
    for_each ros_actions (λ item,
      self ← read id ;
      entities ← lift (event_entities self nodes_in_processes [log_action item.1] item.2) ;
      assign (λ self,
        set_description
          (_description self ++ [RegisterEventHandler (name item.1) entities]) self)).

(** [len(set(l))]. *)
Definition len_set (l : list string) : nat := size (list_to_set (C:=gset string) l).

(** Modelled from the spec: the node name of the supervisor, the default
    [component_name] of [ros_sugar.core.monitor.Monitor]. *)
Definition monitor_node_name : string := "monitor".

Definition duplicate_events_error : Exception :=
  ValueError [Lit "Got duplicate events names. Provide unique names for all your events"].

Definition duplicate_components_error (names : list string) : Exception :=
  ValueError
    [Lit "Got duplicate component names in: "; FStrList names;
     Lit ". Cannot launch components with duplicate names. Provide unique names for all your components"].

(** [Launcher._setup_monitor_node]. *)
Definition _setup_monitor_node (nodes_in_processes : bool) : M unit :=
  ros_actions ← read _ros_actions ;
  (if truthy_list ros_actions then
     assign (set_internal_events (Some (dict_keys ros_actions))) ;;
     assign (λ self,
       set_internal_event_names (Some (name <$> default [] (_internal_events self))) self) ;;
     event_names ← read (λ self, default [] (_internal_event_names self)) ;
     if bool_decide (len_set event_names ≠ length event_names)
     then raise duplicate_events_error else pass
   else pass) ;;
  comps ← read components ;
  let services := filter (λ comp, run_type comp = SERVER) (comps : list BaseComponent) in
  let action_components := filter (λ comp, run_type comp = ACTION_SERVER) comps in
  let names := node_name <$> comps in
  (if bool_decide (len_set names ≠ length names)
   then raise (duplicate_components_error names) else pass) ;;
  assign (λ self,
    set_monitor_node
      (Some {| components_names := names;
               enable_health_status_monitoring := __enable_monitoring self;
               events_actions := _monitor_actions self;
               events_to_emit := _internal_events self;
               services_components := services;
               action_servers_components := action_components;
               activate_on_start := dict_keys (__components_to_activate_on_start self) |})
      self) ;;
  assign (λ self,
    match monitor_node self with
    | Some m =>
        set_description
          (_description self
             ++ [ComponentLaunchAction (MonitorNode m) (_namespace self) monitor_node_name
                   None])
          self
    | None => self
    end) ;;
  assign (λ self,
    set_description
      (_description self
         ++ [RegisterEventHandler "activate_all" (_activate_components_action self)])
      self) ;;
  _setup_internal_events_handlers nodes_in_processes.

Section environment.

(** Whether [import msgpack, msgpack_numpy] succeeds. *)
Variable msgpack_installed : bool.

(** [Launcher._setup_external_processors]: one endpoint and one pooled
    worker for every processor of every key. *)
Definition _setup_external_processors (component : BaseComponent) : M unit :=
  if negb (truthy_list (_external_processors component)) then pass
  else
    assign (λ self,
      if thread_pool self is Some _ then self else set_thread_pool (Some []) self) ;;
    (if msgpack_installed then pass
     else raise (ModuleNotFoundError
       [Lit "In order to use external processors with components launched in multiprocessing, msgpack and msgpack_numpy need to be installed. Please install them with `pip install msgpack msgpack_numpy"])) ;;
    for_each (_external_processors component) (λ item,
      for_each item.2 (λ processor_name,
        let file :=
          [Lit "/tmp/"; FStr (node_name component); Lit "_"; FStr item.1; Lit "_";
           FStr processor_name; Lit ".socket"] in
        assign (λ self,
          set_thread_pool
            (Some (default [] (thread_pool self)
                     ++ [{| sock_file := file; processor := processor_name |}]))
            self))).

(** [Launcher._setup_component_in_process].  The call of
    [component._update_cmd_args_list()], a method of [BaseComponent],
    refreshes [launch_cmd_args]; the record holds the list as it is after
    that call. *)
Definition _setup_component_in_process (component : BaseComponent)
    (pkg_name executable_name ros_log_level : string) : M unit :=
  let node := node_name component in
  _setup_external_processors component ;;
  let arguments := launch_cmd_args component ++ ["--ros-args"; "--log-level"; ros_log_level] in
  assign (λ self,
    let new_node :=
      if managed_entity component
      then LifecycleNodeLaunchAction pkg_name node (_namespace self) node executable_name
             arguments
      else NodeLaunchAction pkg_name node (_namespace self) node executable_name
             arguments in
    set_launch_group (_launch_group self ++ [new_node]) self).

(** [toupper] on a character and on a string. *)
Definition toupper (c : Ascii.ascii) : Ascii.ascii :=
  let n := Ascii.nat_of_ascii c in
  if (97 <=? n)%nat && (n <=? 122)%nat then Ascii.ascii_of_nat (n - 32) else c.

Fixpoint toupper_string (s : string) : string :=
  match s with
  | EmptyString => EmptyString
  | String c s' => String (toupper c) (toupper_string s')
  end.

(** [rclpy.logging.LoggingSeverity]: the names and their values. *)
Definition LoggingSeverity : list (string * Z) :=
  [("UNSET", 0%Z); ("DEBUG", 10%Z); ("INFO", 20%Z); ("WARN", 30%Z); ("ERROR", 40%Z);
   ("FATAL", 50%Z)].

(** [rclpy.logging.get_logging_severity_from_string], of the ROS client
    library and not of the repository: the severity whose name is the
    string, compared without regard to case, and a [RuntimeError] for any
    other string (the text of its message is the library's and is left
    empty here). *)
Definition get_logging_severity_from_string (log_severity : string) : Outcome Z :=
  match dict_get LoggingSeverity (toupper_string log_severity) with
  | Some severity => Return severity
  | None => Raise (RuntimeError [])
  end.

(** [Launcher._setup_component_in_thread]: the severity is looked up
    before the launch action is made. *)
Definition _setup_component_in_thread (component : BaseComponent)
    (ros_log_level : string) : M unit :=
  log_level ← lift (get_logging_severity_from_string ros_log_level) ;
  assign (λ self,
    set_launch_group
      (_launch_group self
         ++ [ComponentLaunchAction (ComponentNode component) (_namespace self)
               (node_name component) (Some log_level)])
      self).

(** [Launcher._start_ros_launch]: the launch service runs the
    description. *)
Definition _start_ros_launch (introspect debug_arg : bool) : M unit :=
  assign (λ self,
    set_ls (Some {| debug := debug_arg; launch_description := _description self |}) self).

(** [Launcher.configure]. *)
Definition configure (config_file : string) (component_name : option string) : M unit :=
  comps ← read components ;
  if truthy_str component_name then
    for_each comps (λ component,
      if decide (Some (node_name component) = component_name)
      then component_configure component config_file false else pass)
  else
    for_each comps (λ component, component_configure component config_file false).

(** [Launcher.bringup].  Setting the process title, the log lines and the
    shutdown of the thread pool after the launch service returned leave no
    trace in the launcher and are left out. *)
Definition bringup (config_file : option string) (introspect launch_debug : bool)
    (ros_log_level : string) : M unit :=
  comps ← read components ;
  (if negb (truthy_list comps) then
     raise (ValueError [Lit "Cannot bringup without adding any components. Use 'add_pkg' method to add a set of components from one ROS2 package then use 'bringup' to start and run your system"])
   else pass) ;;
  (if truthy_str config_file then configure (default "" config_file) None else pass) ;;
  _setup_monitor_node true ;;
  comps ← read components ;
  for_each comps _setup_component_events_handlers ;;
  for_each (imap (λ idx component, (idx, component)) comps) (λ item,
    pkg_executable ← read _pkg_executable ;
    match pkg_executable !! item.1 with
    | Some (pkg_name, executable_name) =>
        if truthy_str pkg_name && truthy_str executable_name then
          _setup_component_in_process item.2 (default "" pkg_name)
            (default "" executable_name) ros_log_level
        else _setup_component_in_thread item.2 ros_log_level
    | None => raise (IndexError [Lit "list index out of range"])
    end) ;;
  assign (λ self,
    set_description (_description self ++ [GroupAction (_launch_group self)]) self) ;;
  _start_ros_launch introspect launch_debug.

End environment.

(** ** The external processor bridge

    The worker speaks MessagePack ([msgpack.packb], [msgpack.unpackb]).
    The library is not part of the repository; the fragment of the format
    below (nil, booleans, integers, byte strings, arrays) is enough to run
    the worker.  A byte is a [Z] between 0 and 255. *)
#[warnings="-register-all"]
Inductive PyValue :=
| VNone
| VBool (b : bool)
| VInt (z : Z)
| VBytes (bs : list Z)
| VList (l : list PyValue).

Local Open Scope Z_scope.

(** The [width] bytes of [n], most significant first. *)
Fixpoint be_bytes (width : nat) (n : Z) : list Z :=
  match width with
  | O => []
  | S w => Z.land (Z.shiftr n (8 * Z.of_nat w)) 255 :: be_bytes w n
  end.

Definition be_value (bs : list Z) : Z :=
  foldl (λ acc b, Z.lor (Z.shiftl acc 8) b) 0%Z bs.

Definition pack_int (n : Z) : Outcome (list Z) :=
  if (0 <=? n)%Z then
    if (n <? 128)%Z then Return [n]
    else if (n <? 2 ^ 8)%Z then Return (204 :: be_bytes 1%nat n)
    else if (n <? 2 ^ 16)%Z then Return (205 :: be_bytes 2%nat n)
    else if (n <? 2 ^ 32)%Z then Return (206 :: be_bytes 4%nat n)
    else if (n <? 2 ^ 64)%Z then Return (207 :: be_bytes 8%nat n)
    else Raise (OverflowError [Lit "Integer value out of range"])
  else
    if (-32 <=? n)%Z then Return [(n + 256)%Z]
    else if (- 2 ^ 7 <=? n)%Z then Return (208 :: be_bytes 1%nat (n + 2 ^ 8))
    else if (- 2 ^ 15 <=? n)%Z then Return (209 :: be_bytes 2%nat (n + 2 ^ 16))
    else if (- 2 ^ 31 <=? n)%Z then Return (210 :: be_bytes 4%nat (n + 2 ^ 32))
    else if (- 2 ^ 63 <=? n)%Z then Return (211 :: be_bytes 8%nat (n + 2 ^ 64))
    else Raise (OverflowError [Lit "Integer value out of range"]).

Definition pack_header (short : option Z) (h16 h32 : Z) (len : nat) : Outcome (list Z) :=
  let n := Z.of_nat len in
  match short with
  | Some h => if (n <? 16)%Z then Return [(h + n)%Z]
              else if (n <? 2 ^ 16)%Z then Return (h16 :: be_bytes 2%nat n)
              else if (n <? 2 ^ 32)%Z then Return (h32 :: be_bytes 4%nat n)
              else Raise (ValueError [Lit "object is too large"])
  | None => if (n <? 2 ^ 8)%Z then Return (196 :: be_bytes 1%nat n)
            else if (n <? 2 ^ 16)%Z then Return (h16 :: be_bytes 2%nat n)
            else if (n <? 2 ^ 32)%Z then Return (h32 :: be_bytes 4%nat n)
            else Raise (ValueError [Lit "object is too large"])
  end.

(** [msgpack.packb]. *)
Fixpoint packb (v : PyValue) : Outcome (list Z) :=
  match v with
  | VNone => Return [192%Z]
  | VBool false => Return [194%Z]
  | VBool true => Return [195%Z]
  | VInt n => pack_int n
  | VBytes bs =>
      match pack_header None 197 198 (length bs) with
      | Return h => Return (h ++ bs)
      | Raise e => Raise e
      end
  | VList l =>
      match pack_header (Some 144%Z) 220 221 (length l) with
      | Return h =>
          (fix items (l : list PyValue) (acc : list Z) : Outcome (list Z) :=
             match l with
             | [] => Return acc
             | x :: l' =>
                 match packb x with
                 | Return bs => items l' (acc ++ bs)
                 | Raise e => Raise e
                 end
             end) l h
      | Raise e => Raise e
      end
  end.

Definition take_exact (n : nat) (data : list Z) : option (list Z * list Z) :=
  if bool_decide (n ≤ length data)%nat then Some (take n data, drop n data) else None.

(** One object from the front of [data], and what follows it. *)
Fixpoint unpack (fuel : nat) (data : list Z) : option (PyValue * list Z) :=
  match fuel with
  | O => None
  | S fuel' =>
      let items :=
        fix items (n : nat) (data : list Z) : option (list PyValue * list Z) :=
          match n with
          | O => Some ([], data)
          | S n' =>
              '(x, data') ← unpack fuel' data ;
              '(xs, data'') ← items n' data' ;
              Some (x :: xs, data'')
          end in
      let sized (width : nat) (rest : list Z) (k : Z → list Z → option (PyValue * list Z)) :=
        '(len, rest') ← take_exact width rest ; k (be_value len) rest' in
      let bytes_of (n : Z) (rest : list Z) :=
        '(bs, rest') ← take_exact (Z.to_nat n) rest ; Some (VBytes bs, rest') in
      let list_of (n : Z) (rest : list Z) :=
        '(xs, rest') ← items (Z.to_nat n) rest ; Some (VList xs, rest') in
      match data with
      | [] => None
      | b :: rest =>
          if (b <? 128)%Z then Some (VInt b, rest)
          else if (144 <=? b)%Z && (b <? 160)%Z then list_of (b - 144)%Z rest
          else if (b =? 192)%Z then Some (VNone, rest)
          else if (b =? 194)%Z then Some (VBool false, rest)
          else if (b =? 195)%Z then Some (VBool true, rest)
          else if (b =? 196)%Z then sized 1%nat rest bytes_of
          else if (b =? 197)%Z then sized 2%nat rest bytes_of
          else if (b =? 198)%Z then sized 4%nat rest bytes_of
          else if (b =? 204)%Z then sized 1%nat rest (λ n r, Some (VInt n, r))
          else if (b =? 205)%Z then sized 2%nat rest (λ n r, Some (VInt n, r))
          else if (b =? 206)%Z then sized 4%nat rest (λ n r, Some (VInt n, r))
          else if (b =? 207)%Z then sized 8%nat rest (λ n r, Some (VInt n, r))
          else if (b =? 208)%Z then sized 1%nat rest (λ n r, Some (VInt (n - 2 ^ 8 * (n / 2 ^ 7)), r))
          else if (b =? 209)%Z then sized 2%nat rest (λ n r, Some (VInt (n - 2 ^ 16 * (n / 2 ^ 15)), r))
          else if (b =? 210)%Z then sized 4%nat rest (λ n r, Some (VInt (n - 2 ^ 32 * (n / 2 ^ 31)), r))
          else if (b =? 211)%Z then sized 8%nat rest (λ n r, Some (VInt (n - 2 ^ 64 * (n / 2 ^ 63)), r))
          else if (b =? 220)%Z then sized 2%nat rest list_of
          else if (b =? 221)%Z then sized 4%nat rest list_of
          else if (224 <=? b)%Z then Some (VInt (b - 256), rest)
          else None
      end
  end.

Local Close Scope Z_scope.

(** [msgpack.unpackb]: exactly one object, nothing after it. *)
Definition unpackb (data : list Z) : Outcome PyValue :=
  match unpack (S (length data)) data with
  | Some (v, []) => Return v
  | Some (_, _ :: _) => Raise (ValueError [Lit "unpack(b) received extra data."])
  | None => Raise (ValueError [Lit "Unpack failed: incomplete input"])
  end.

(** [conn.sendall(x)]: the bytes put on the socket.  Only a bytes-like
    object can be sent. *)
Definition sendall (x : PyValue) : Outcome (list Z) :=
  match x with
  | VBytes bs => Return bs
  | _ => Raise (TypeError [Lit "a bytes-like object is required"])
  end.

(** One turn of the loop of [Launcher.__listen_for_external_processing]
    on the bytes [conn.recv(1024)] returned: what is sent, [None] when the
    empty read makes the loop [continue]. *)
Definition listen_iteration (func : PyValue → Outcome PyValue) (data : list Z)
    : Outcome (option (list Z)) :=
  if negb (truthy_list data) then Return None
  else
    match unpackb data with
    | Raise e => Raise e
    | Return data =>
        match func data with
        | Raise e => Raise e
        | Return result =>
            match packb result with
            | Raise e => Raise e
            | Return result =>
                match sendall data with
                | Raise e => Raise e
                | Return bytes_sent => Return (Some bytes_sent)
                end
            end
        end
    end.

(** [Launcher.__listen_for_external_processing] on one accepted
    connection.  The loop never returns; [received] lists what the
    successive calls of [recv] return, and the result is what was sent while
    they were consumed, with the exception that ended the worker, if one
    did. *)
Fixpoint __listen_for_external_processing (func : PyValue → Outcome PyValue)
    (received : list (list Z)) : list (list Z) * option Exception :=
  match received with
  | [] => ([], None)
  | data :: later =>
      match listen_iteration func data with
      | Raise e => ([], Some e)
      | Return None => __listen_for_external_processing func later
      | Return (Some bytes_sent) =>
          let '(sent, end_) := __listen_for_external_processing func later in
          (bytes_sent :: sent, end_)
      end
  end.

(** * Vocabulary of the statements, and examples *)

Definition increment (v : PyValue) : Outcome PyValue :=
  match v with
  | VInt n => Return (VInt (n + 1))
  | _ => Return v
  end.

Definition constant_seven (v : PyValue) : Outcome PyValue := Return (VInt 7).

Definition plain_component (id : nat) (node : string) : BaseComponent :=
  {| comp_id := id; node_name := node; run_type := TIMED; methods := [];
     managed_entity := true; launch_cmd_args := []; _external_processors := [] |}.

Definition component_action_for (c : BaseComponent) (method : string) : Action :=
  {| executable := {| __self__ := ComponentObject c; __name__ := method |};
     args := []; kwargs := [];
     action_name := method;
     parent_component := node_name c;
     component_action := true;
     monitor_action := false |}.

(** The outcome of a loop whose body raises or not whatever the state:
    the first exception in the order of the list. *)
Fixpoint first_raise {A : Type} (out : A → Outcome unit) (l : list A) : Outcome unit :=
  match l with
  | [] => Return tt
  | x :: l' =>
      match out x with
      | Return _ => first_raise out l'
      | Raise e => Raise e
      end
  end.

(** The condition under which [on_fail] refuses a component: the name is
    not one of its fallbacks, or the method bound to the name declares a
    parameter without a default value. *)
Definition refused (fallback_name : string) (c : BaseComponent) : Prop :=
  fallback_name ∉ fallbacks c
  ∨ ∃ m, getattr_component c fallback_name = Some m
         ∧ ∃ p, p ∈ parameters m ∧ param_default p = None.

(** The pairs of an events/actions dictionary, in the order the two loops
    of [__rewrite_actions_for_components] visit them. *)
Definition registrations (actions_dict : list (Event * RawAction))
    : list (Event * AnyAction) :=
  actions_dict ≫= λ item, (λ a, (item.1, a)) <$> action_set item.2.

(** A component action whose owner is not in the list of components. *)
Definition unknown_owner (components_list : list BaseComponent) (a : Action) : bool :=
  component_action a
  && bool_decide (count components_list (__self__ (executable a)) ≤ 0)%nat.

Definition rewrite_outcome (components_list : list BaseComponent)
    (p : Event * AnyAction) : Outcome unit :=
  match p.2 with
  | ROS _ => Return tt
  | Sugar a =>
      if unknown_owner components_list a
      then Raise (InvalidAction
                    (unknown_component_message p.1 (__self__ (executable a))))
      else Return tt
  end.

(** The arguments pass the first test of [add_pkg]. *)
Definition process_arguments_given (multiprocessing : bool)
    (package_name executable_entry_point : option string) : Prop :=
  multiprocessing = true →
  truthy_str package_name = true ∧ truthy_str executable_entry_point = true.

(** What a failed setup must leave alone: nothing was added to the launch
    description or to the launch group, no worker was submitted and the
    launch service was not started. *)
Definition nothing_launched (self self' : Launcher) : Prop :=
  ls self' = ls self
  ∧ _launch_group self' = _launch_group self
  ∧ _description self' = _description self
  ∧ thread_pool self' = thread_pool self
  ∧ monitor_node self' = monitor_node self.

Definition no_components_error : Exception :=
  ValueError [Lit "Cannot bringup without adding any components. Use 'add_pkg' method to add a set of components from one ROS2 package then use 'bringup' to start and run your system"].

(** The actions a list of registrations puts under an event, in order. *)
Definition under (e : Event) (pairs : list (Event * AnyAction)) : list AnyAction :=
  (filter (λ p, p.1 = e) pairs).*2.

Definition is_ros (a : AnyAction) : bool :=
  match a with ROS _ => true | Sugar _ => false end.

(** The three registries an action can go to. *)
Definition ros_part (l : list AnyAction) : list AnyAction :=
  filter (λ a, is_ros a = true) l.

Definition component_part (l : list AnyAction) : list Action :=
  omap (λ a, match a with
             | Sugar a => if component_action a then Some a else None
             | ROS _ => None
             end) l.

Definition monitor_part (l : list AnyAction) : list Action :=
  omap (λ a, match a with
             | Sugar a =>
                 if negb (component_action a) && monitor_action a then Some a else None
             | ROS _ => None
             end) l.

(** The lists of an event in the registries of [self'] are those of
    [self] followed by [l], each registry taking its part. *)
Definition registered_after (self self' : Launcher) (e : Event) (l : list AnyAction)
    : Prop :=
  default [] (dict_get (_ros_actions self') e)
    = default [] (dict_get (_ros_actions self) e) ++ ros_part l
  ∧ default [] (dict_get (_components_actions self') e)
    = default [] (dict_get (_components_actions self) e) ++ component_part l
  ∧ default [] (dict_get (_monitor_actions self') e)
    = default [] (dict_get (_monitor_actions self) e) ++ monitor_part l.

(** The registries of two launchers agree. *)
Definition same_registries (self self' : Launcher) : Prop :=
  _ros_actions self' = _ros_actions self
  ∧ _components_actions self' = _components_actions self
  ∧ _monitor_actions self' = _monitor_actions self.

(** The launcher hands ROS launch actions, and nothing else, to its own
    event handlers. *)
Definition ros_only (self : Launcher) : Prop :=
  Forall (λ item, Forall (λ a, is_ros a = true) item.2) (_ros_actions self).

(** The entities of a list of ROS launch actions. *)
Definition passthrough (l : list AnyAction) : list LaunchEntity :=
  omap (λ a, match a with ROS r => Some (Passthrough r) | Sugar _ => None end) l.

(** The handler [_setup_internal_events_handlers] registers for an entry
    of [_ros_actions]. *)
Definition internal_event_handler (item : Event * list AnyAction) : LaunchEntity :=
  RegisterEventHandler (name item.1) (log_action item.1 :: passthrough item.2).

Definition event_E1 : Event := {| event_id := 1; name := "E1" |}.
Definition event_E1_again : Event := {| event_id := 2; name := "E1" |}.

Definition component_A : BaseComponent := plain_component 0 "A".
Definition component_B : BaseComponent := plain_component 1 "B".
Definition component_A_again : BaseComponent := plain_component 2 "A".

(** An action the supervisor runs. *)
Definition monitor_action_publish : Action :=
  {| executable := {| __self__ := MonitorObject; __name__ := "publish_message" |};
     args := []; kwargs := [];
     action_name := "publish_message";
     parent_component := "";
     component_action := false;
     monitor_action := true |}.

Definition ros_log (text : string) : AnyAction := ROS (RosAction text).

(** A component with a fallback that can be called without arguments and
    one that needs an argument. *)
Definition component_with_fallbacks (id : nat) (node : string) : BaseComponent :=
  {| comp_id := id; node_name := node; run_type := TIMED;
     methods :=
       [{| method_name := "restart"; parameters := [];
           decorators := ["component_fallback"] |};
        {| method_name := "reconfigure";
           parameters := [{| param_name := "new_config";
                             kind := POSITIONAL_OR_KEYWORD;
                             param_default := None |};
                          {| param_name := "keep_alive";
                             kind := POSITIONAL_OR_KEYWORD;
                             param_default := Some (PyBool true) |}];
           decorators := ["component_fallback"] |};
        {| method_name := "start"; parameters := []; decorators := [] |}];
     managed_entity := true; launch_cmd_args := []; _external_processors := [] |}.

(** [add_pkg] with the default arguments of the source. *)
Definition add_pkg_default (comps : list BaseComponent)
    (ea : option (list (Event * RawAction))) (self : Launcher) : Launcher :=
  (add_pkg comps None (Some "executable") ea false true None self).1.

(** Two events of one name that hold an action of the supervisor each. *)
Definition two_monitor_events : list (Event * RawAction) :=
  [(event_E1, Single (Sugar monitor_action_publish));
   (event_E1_again, Single (Sugar monitor_action_publish))].

(** Two events of one name that hold a ROS launch action each. *)
Definition two_internal_events : list (Event * RawAction) :=
  [(event_E1, Single (ros_log "one")); (event_E1_again, Single (ros_log "two"))].

(** One component, two events of one name with actions of the supervisor. *)
Definition launcher_two_monitor_events : Launcher :=
  add_pkg_default [component_B] (Some two_monitor_events) (init "" None true).

(** One component, two internal events of one name. *)
Definition launcher_two_internal_events : Launcher :=
  add_pkg_default [component_B] (Some two_internal_events) (init "" None true).

(** Two components of one name, and two internal events of one name. *)
Definition launcher_two_duplicates : Launcher :=
  add_pkg_default [component_A; component_A_again] (Some two_internal_events)
    (init "" None true).

(** Two components of one name, no event. *)
Definition launcher_two_components : Launcher :=
  add_pkg_default [component_A; component_A_again] None (init "" None true).

(** An event with one action of the component [A]. *)
Definition events_for_A : list (Event * RawAction) :=
  [(event_E1, Single (Sugar (component_action_for component_A "restart")))].



(** A component that has the fallback [restart], then one that has not. *)
Definition launcher_with_fallbacks : Launcher :=
  add_pkg_default [component_with_fallbacks 0 "A"; component_B] None (init "" None true).

(** * More of the launcher: vocabulary *)

(** The pair [add_pkg] stores for each component of a call. *)
Definition package_pair (multiprocessing : bool)
    (package_name executable_entry_point : option string)
    : option string * option string :=
  if multiprocessing then (package_name, executable_entry_point) else (None, None).

(** The components a call of [add_pkg] marks for activation. *)
Definition chosen_for_activation (components_arg : list BaseComponent)
    (activate_all_components_on_start : bool)
    (components_to_activate_on_start : option (list BaseComponent))
    : list BaseComponent :=
  if truthy_opt_list components_to_activate_on_start
  then default [] components_to_activate_on_start
  else if activate_all_components_on_start then components_arg else [].

(** What holds of every launcher made by [init] and calls of [add_pkg]:
    one package pair per component, ROS launch actions only in
    [_ros_actions], and no key twice in a registry. *)
Definition consistent (self : Launcher) : Prop :=
  length (_pkg_executable self) = length (components self)
  ∧ ros_only self
  ∧ NoDup (dict_keys (_ros_actions self))
  ∧ NoDup (dict_keys (_components_actions self))
  ∧ NoDup (dict_keys (_monitor_actions self)).


(** The name under which a handler is found on the launcher. *)
Definition handler_name (h : ActionHandler) : string :=
  match h with
  | Start => "start"
  | Stop => "stop"
  | Restart => "restart"
  end.

(** The transitions a handler asks for. *)
Definition handler_transitions (h : ActionHandler) : list Z :=
  match h with
  | Start => [Transition.TRANSITION_CONFIGURE; Transition.TRANSITION_ACTIVATE]
  | Stop => [Transition.TRANSITION_DEACTIVATE]
  | Restart => [Transition.TRANSITION_DEACTIVATE; Transition.TRANSITION_ACTIVATE]
  end.

(** The actions of an event that a component takes from
    [_components_actions]: those that declare its node name. *)
Definition actions_of_component (comp : BaseComponent) (self : Launcher) (e : Event)
    : list Action :=
  filter (λ action, node_name comp = parent_component action)
         (default [] (dict_get (_components_actions self) e)).

(** The inner step of [_setup_component_events_handlers]: the action is
    put under its event when it declares the node name of the component. *)
Definition take_action (comp : BaseComponent) (key : Event)
    (d : list (Event * list Action)) (action : Action) : list (Event * list Action) :=
  if decide (node_name comp = parent_component action)
  then __update_dict_list d key action else d.


(** The entry of the activation handler for a marked component: the
    lifecycle transitions of [start] for a component in a process, a call
    of the component's own [start] for a component in a thread. *)
Definition activation_entry (item : BaseComponent * bool) : LaunchEntity :=
  if item.2
  then LifecycleTransition [node_name item.1]
         [Transition.TRANSITION_CONFIGURE; Transition.TRANSITION_ACTIVATE]
  else MethodLaunchAction item.1 "start".

(** One component and an event with an action of it. *)
Definition launcher_with_action : Launcher :=
  add_pkg_default [component_A] (Some events_for_A) (init "" None true).

(** The supervisor [_setup_monitor_node] builds. *)
Definition monitor_of (self : Launcher) : Monitor :=
  {| components_names := node_name <$> components self;
     enable_health_status_monitoring := __enable_monitoring self;
     events_actions := _monitor_actions self;
     events_to_emit :=
       if _ros_actions self is [] then _internal_events self
       else Some (dict_keys (_ros_actions self));
     services_components := filter (λ comp, run_type comp = SERVER) (components self);
     action_servers_components :=
       filter (λ comp, run_type comp = ACTION_SERVER) (components self);
     activate_on_start := dict_keys (__components_to_activate_on_start self) |}.

(** What [_setup_monitor_node] adds to the launch description. *)
Definition monitor_entities (self : Launcher) : list LaunchEntity :=
  [ComponentLaunchAction (MonitorNode (monitor_of self)) (_namespace self) monitor_node_name
     None;
   RegisterEventHandler "activate_all" (_activate_components_action self)]
  ++ (internal_event_handler <$> _ros_actions self).

(** The launch action [bringup] makes for a component and its package
    pair: a node in a process of its own when both names are given, a node
    in a thread of the launcher, with the severity of the log level,
    otherwise. *)
Definition launch_entity (namespace level : string) (severity : Z) (c : BaseComponent)
    (pair : option string * option string) : LaunchEntity :=
  if truthy_str pair.1 && truthy_str pair.2 then
    (if managed_entity c then LifecycleNodeLaunchAction else NodeLaunchAction)
      (default "" pair.1) (node_name c) namespace (node_name c) (default "" pair.2)
      (launch_cmd_args c ++ ["--ros-args"; "--log-level"; level])
  else ComponentLaunchAction (ComponentNode c) namespace (node_name c) (Some severity).

(** Two components; an event with a ROS launch action, an action of the
    component [A] and an action of the supervisor. *)
Definition launcher_ready : Launcher :=
  add_pkg_default [component_A; component_B]
    (Some [(event_E1, Many [ros_log "one";
                            Sugar (component_action_for component_A "restart");
                            Sugar monitor_action_publish])])
    (init "" None true).


(** What [component.configure(file)] does to the state of a component;
    [set_attr] tells whether [_config_file] is assigned first. *)
Definition configured_with (file : string) (set_attr : bool) (st : ComponentState)
    : ComponentState :=
  {| comp_config_file := if set_attr then Some file else comp_config_file st;
     comp_configured := comp_configured st ++ [file];
     comp_on_fail := comp_on_fail st;
     comp_events_actions := comp_events_actions st |}.

(** What [on_fail] does to the state of a component that has the
    fallback. *)
Definition with_fallback (fallback_name : string) (retries : option Z) (c : BaseComponent)
    (st : ComponentState) : ComponentState :=
  match getattr_component c fallback_name with
  | Some m =>
      {| comp_config_file := comp_config_file st;
         comp_configured := comp_configured st;
         comp_on_fail :=
           Some {| fallback_action := Action_of_method c m; max_retries := retries |};
         comp_events_actions := comp_events_actions st |}
  | None => st
  end.

(** The workers [_setup_external_processors] submits for a component: one
    for every processor of every key, in order. *)
Definition bridge_tasks (component : BaseComponent) : list BridgeTask :=
  _external_processors component ≫= λ item,
    (λ processor_name,
       {| sock_file :=
            [Lit "/tmp/"; FStr (node_name component); Lit "_"; FStr item.1; Lit "_";
             FStr processor_name; Lit ".socket"];
          processor := processor_name |}) <$> item.2.

(** A component with two processors under one key and one under
    another. *)
Definition component_with_processors : BaseComponent :=
  {| comp_id := 7; node_name := "vision"; run_type := TIMED; methods := [];
     managed_entity := true; launch_cmd_args := [];
     _external_processors := [("image", ["resize"; "blur"]); ("depth", ["clip"])] |}.

(** A processing function that fails. *)
Definition failing_processor (v : PyValue) : Outcome PyValue :=
  Raise (ValueError [Lit "bad input"]).

(** A launcher with a configuration file and two components. *)
Definition launcher_with_config : Launcher :=
  add_pkg_default [component_A; component_B] None (init "" (Some "params.yaml") true).

(** * Properties *)

(** ** Lifecycle handlers *)

(** C7.  For every component name the built-in handlers ask for exactly
    these ordered transitions: [start] for configure then activate, [stop]
    for deactivate only, [restart] for deactivate then activate.  Each is a
    pure mapping from the name: neither the launcher nor the keyword
    arguments it is called with change the result. *)
Theorem lifecycle_handlers_sequences (node : string) :
  (∀ self kw,
     start self node kw
       = [LifecycleTransition [node]
            [Transition.TRANSITION_CONFIGURE; Transition.TRANSITION_ACTIVATE]]
     ∧ requested_transitions (start self node kw)
       = [(node, Transition.TRANSITION_CONFIGURE); (node, Transition.TRANSITION_ACTIVATE)])
  ∧ (∀ self kw,
     stop self node kw = [LifecycleTransition [node] [Transition.TRANSITION_DEACTIVATE]]
     ∧ requested_transitions (stop self node kw)
       = [(node, Transition.TRANSITION_DEACTIVATE)])
  ∧ (∀ self kw,
     restart self node kw
       = [LifecycleTransition [node]
            [Transition.TRANSITION_DEACTIVATE; Transition.TRANSITION_ACTIVATE]]
     ∧ requested_transitions (restart self node kw)
       = [(node, Transition.TRANSITION_DEACTIVATE); (node, Transition.TRANSITION_ACTIVATE)])
  ∧ (∀ self self' kw kw',
     start self node kw = start self' node kw'
     ∧ stop self node kw = stop self' node kw'
     ∧ restart self node kw = restart self' node kw').
Proof. repeat split. Qed.

(** ** The external processor bridge *)

(** Whatever the processing function returns, a turn of the worker that
    sends something sends the decoded request: the packed result is
    computed and dropped. *)
Lemma listen_iteration_sends_request func data bytes_sent :
  listen_iteration func data = Return (Some bytes_sent) →
  unpackb data = Return (VBytes bytes_sent).
Proof.
  unfold listen_iteration. destruct (truthy_list data); simpl; [|done].
  destruct (unpackb data) as [v|]; [|done].
  destruct (func v) as [r|]; [|done].
  destruct (packb r); [|done].
  destruct v; simpl; try done. by intros [= ->].
Qed.

(** A request that does not decode to a byte string ends the worker. *)
Lemma listen_iteration_not_bytes func data v :
  unpackb data = Return v →
  (∀ bs, v ≠ VBytes bs) →
  listen_iteration func data = Return None
  ∨ ∃ e, listen_iteration func data = Raise e.
Proof.
  intros Hv Hnb. unfold listen_iteration.
  destruct (truthy_list data); simpl; [|by left]. right. rewrite Hv.
  destruct (func v) as [r|e]; [|by eexists].
  destruct (packb r) as [p|e]; [|by eexists].
  destruct v; simpl; try by eexists. by destruct (Hnb bs).
Qed.

(** C1.  The worker does not answer with the packed result of the
    processing function.  Sent the packed integer 1 with a function that
    adds one, it sends nothing and ends with a [TypeError], where the packed
    2 was due; sent a packed byte string with a function that returns 7, it
    sends the raw bytes of the request, which the peer decodes to 97. *)
Theorem listen_for_external_processing_sends_request :
  packb (VInt 1) = Return [1%Z]
  ∧ packb (VInt 2) = Return [2%Z]
  ∧ __listen_for_external_processing increment [[1%Z]]
    = ([], Some (TypeError [Lit "a bytes-like object is required"]))
  ∧ packb (VBytes [97%Z]) = Return [196; 1; 97]%Z
  ∧ packb (VInt 7) = Return [7%Z]
  ∧ __listen_for_external_processing constant_seven [[196; 1; 97]%Z] = ([[97%Z]], None)
  ∧ unpackb [97%Z] = Return (VInt 97).
Proof. repeat split. Qed.

(** ** Dispatch of component actions *)

(** When no component has the declared name, the loop leaves [comp] bound
    to the last component of the list. *)
Lemma component_loop_no_match comp l parent :
  (∀ c, c ∈ l → node_name c ≠ parent) →
  component_loop comp l parent = from_option Some comp (last l).
Proof.
  revert comp. induction l as [|c l IH]; intros comp Hno; [by destruct comp|].
  simpl. destruct (decide (node_name c = parent)) as [Heq|_].
  - destruct (Hno c); [left | done].
  - rewrite IH; [|intros c' Hc'; apply Hno; by right].
    rewrite last_cons. by destruct (last l).
Qed.

(** A dispatch with an unknown owner goes through as soon as the launcher
    has one component: the handler is called with the last component. *)
Lemma dispatch_unknown_component self action h c l :
  getattr_launcher self (action_name action) = Some (HandlerMethod h) →
  components self = l ++ [c] →
  (∀ c', c' ∈ components self → node_name c' ≠ parent_component action) →
  _get_action_launch_entity_call self action
    = Return {| call_method := h; call_args := args action;
                call_kwargs := kwargs action;
                call_node_name := parent_component action;
                call_component := c |}.
Proof.
  intros Hget Hcomps Hno. unfold _get_action_launch_entity_call.
  rewrite Hget. simpl. rewrite component_loop_no_match by done.
  by rewrite Hcomps, last_snoc.
Qed.

(** C2.  With the single component [B] registered, the dispatch of
    [start] for the component [A] raises nothing: the handler is called for
    the node [A], with [B] as its component, and its transitions are
    returned. *)
Theorem get_action_launch_entity_unknown_component :
  let self := set_components [plain_component 1 "B"] (init "" None true) in
  let action := component_action_for (plain_component 0 "A") "start" in
  node_name <$> components self = ["B"]
  ∧ parent_component action = "A"
  ∧ _get_action_launch_entity_call self action
    = Return {| call_method := Start; call_args := []; call_kwargs := [];
                call_node_name := "A"; call_component := plain_component 1 "B" |}
  ∧ _get_action_launch_entity self action
    = Return [LifecycleTransition ["A"]
                [Transition.TRANSITION_CONFIGURE; Transition.TRANSITION_ACTIVATE]].
Proof.
  by simpl.
Qed.

(** C8.  The dispatch looks the operation up on the launcher and checks
    that it was declared a handler before it calls it: a call is reached
    only for an attribute that carries [action_handler]; when the attribute
    is missing, or is there without being a handler, the dispatch raises
    [InvalidAction] before any call. *)
Theorem get_action_launch_entity_checks_handler (self : Launcher) (action : Action) :
  (∀ call,
     _get_action_launch_entity_call self action = Return call →
     ∃ attr, getattr_launcher self (action_name action) = Some attr
             ∧ has_decorator (attribute_decorators attr) "action_handler" = true
             ∧ attr = HandlerMethod (call_method call))
  ∧ (getattr_launcher self (action_name action) = None
     ∨ (∃ attr, getattr_launcher self (action_name action) = Some attr
                ∧ has_decorator (attribute_decorators attr) "action_handler" = false) →
     ∃ msg, _get_action_launch_entity_call self action = Raise (InvalidAction msg)
            ∧ _get_action_launch_entity self action = Raise (InvalidAction msg)
            ∧ mentions (action_name action) msg).
Proof.
  unfold _get_action_launch_entity, _get_action_launch_entity_call. split.
  - intros call. destruct (getattr_launcher self (action_name action)) as [attr|]; [|done].
    destruct attr as [h|]; simpl; [|done].
    destruct (component_loop _ _ _); [|done].
    intros [= <-]. by exists (HandlerMethod h).
  - intros [-> | (attr & -> & Hdec)].
    + eexists. repeat split. left. set_solver.
    + rewrite Hdec. simpl. eexists. repeat split. left. set_solver.
Qed.

Lemma get_action_launch_entity_checks_handler_witness :
  let self := set_components [plain_component 1 "B"] (init "" None true) in
  (∃ msg, _get_action_launch_entity self (component_action_for (plain_component 1 "B") "shutdown")
          = Raise (InvalidAction msg))
  ∧ (∃ msg, _get_action_launch_entity self (component_action_for (plain_component 1 "B") "bringup")
            = Raise (InvalidAction msg)).
Proof.
  intros self. split.
  - destruct (proj2 (get_action_launch_entity_checks_handler self
                       (component_action_for (plain_component 1 "B") "shutdown")))
      as (msg & _ & H & _); [left; reflexivity | by exists msg].
  - destruct (proj2 (get_action_launch_entity_checks_handler self
                       (component_action_for (plain_component 1 "B") "bringup")))
      as (msg & _ & H & _); [right; exists OtherAttribute; split; reflexivity | by exists msg].
Defined.


(** ** Ordered dictionaries and loops *)

Section dict_lemmas.
Context {K V : Type} `{EqDecision K}.
Implicit Types (d : list (K * V)) (k : K) (v : V).

Lemma dict_get_set d k v k' :
  dict_get (dict_set d k v) k' = if decide (k = k') then Some v else dict_get d k'.
Proof.
  induction d as [|[k0 v0] d IH]; simpl.
  - by destruct (decide (k = k')).
  - destruct (decide (k0 = k)) as [->|Hne]; simpl.
    + by destruct (decide (k = k')).
    + rewrite IH. destruct (decide (k0 = k')) as [->|]; [|done].
      by destruct (decide (k = k')).
Qed.

Lemma dict_get_set_eq d k v : dict_get (dict_set d k v) k = Some v.
Proof. rewrite dict_get_set. by destruct (decide (k = k)). Qed.

Lemma dict_get_set_ne d k v k' : k ≠ k' → dict_get (dict_set d k v) k' = dict_get d k'.
Proof. intros. rewrite dict_get_set. by destruct (decide (k = k')). Qed.

Lemma dict_get_None d k : dict_get d k = None ↔ k ∉ dict_keys d.
Proof.
  unfold dict_keys. induction d as [|[k0 v0] d IH]; simpl.
  - split; [intros _; apply not_elem_of_nil | done].
  - rewrite not_elem_of_cons. destruct (decide (k0 = k)) as [->|Hne].
    + split; [done | by intros []].
    + rewrite IH. split; [by split | by intros []].
Qed.

(** Assigning to a key keeps the order of the keys; a new key goes last. *)
Lemma dict_keys_set d k v :
  dict_keys (dict_set d k v)
    = if decide (k ∈ dict_keys d) then dict_keys d else dict_keys d ++ [k].
Proof.
  unfold dict_keys. induction d as [|[k0 v0] d IH]; csimpl.
  - done.
  - destruct (decide (k0 = k)) as [->|Hne]; csimpl.
    + by rewrite decide_True by set_solver.
    + rewrite IH. destruct (decide (k ∈ d.*1)) as [Hin|Hnin].
      * by rewrite decide_True by set_solver.
      * by rewrite decide_False by set_solver.
Qed.

End dict_lemmas.

Section update_dict_list.
Context {K V : Type} `{EqDecision K}.
Implicit Types (d : list (K * list V)) (k : K) (v : V).

(** The value goes to the end of the list of its key. *)
Lemma update_dict_list_get d k v :
  dict_get (__update_dict_list d k v) k = Some (default [] (dict_get d k) ++ [v]).
Proof.
  unfold __update_dict_list.
  destruct (dict_get d k) as [[|x l]|]; by rewrite dict_get_set_eq.
Qed.

(** The lists of the other keys are left alone. *)
Lemma update_dict_list_get_ne d k v k' :
  k ≠ k' → dict_get (__update_dict_list d k v) k' = dict_get d k'.
Proof.
  intros. unfold __update_dict_list.
  destruct (dict_get d k) as [[|x l]|]; by rewrite dict_get_set_ne.
Qed.

Lemma update_dict_list_default d k v k' :
  default [] (dict_get (__update_dict_list d k v) k')
    = default [] (dict_get d k') ++ (if decide (k = k') then [v] else []).
Proof.
  destruct (decide (k = k')) as [->|Hne].
  - by rewrite update_dict_list_get.
  - rewrite update_dict_list_get_ne by done. by rewrite app_nil_r.
Qed.

Lemma update_dict_list_keys d k v :
  dict_keys (__update_dict_list d k v)
    = if decide (k ∈ dict_keys d) then dict_keys d else dict_keys d ++ [k].
Proof.
  unfold __update_dict_list.
  destruct (dict_get d k) as [[|x l]|]; by rewrite dict_keys_set.
Qed.

End update_dict_list.

Lemma M_bind_unfold {A B : Type} (m : M A) (f : A → M B) (self : Launcher) :
  (m ≫= f) self
    = match m self with
      | (self', Return a) => f a self'
      | (self', Raise e) => (self', Raise e)
      end.
Proof. reflexivity. Qed.

Lemma for_each_cons {A : Type} (x : A) (l : list A) (body : A → M unit) self :
  for_each (x :: l) body self
    = match body x self with
      | (self', Return _) => for_each l body self'
      | (self', Raise e) => (self', Raise e)
      end.
Proof. reflexivity. Qed.

Lemma for_each_outcome {A : Type} (out : A → Outcome unit) (l : list A)
    (body : A → M unit) :
  (∀ x self, (body x self).2 = out x) →
  ∀ self, (for_each l body self).2 = first_raise out l.
Proof.
  intros Hout. induction l as [|x l IH]; intros self; [done|].
  rewrite for_each_cons. simpl. specialize (Hout x self).
  destruct (body x self) as [self' [[]|e]]; simpl in Hout; rewrite <- Hout; [apply IH | done].
Qed.

Lemma for_each_no_raise {A : Type} (l : list A) (body : A → M unit) :
  (∀ x self, (body x self).2 = Return tt) →
  ∀ self, (for_each l body self).2 = Return tt.
Proof.
  intros Hbody self. rewrite (for_each_outcome (λ _, Return tt)) by done.
  by induction l.
Qed.

(** A loop leaves alone what its body leaves alone. *)
Lemma for_each_frame {A B : Type} (f : Launcher → B) (l : list A) (body : A → M unit) :
  (∀ x self, f (body x self).1 = f self) →
  ∀ self, f (for_each l body self).1 = f self.
Proof.
  intros Hf. induction l as [|x l IH]; intros self; [done|].
  rewrite for_each_cons. specialize (Hf x self).
  destruct (body x self) as [self' [[]|e]]; simpl in *; [by rewrite IH | done].
Qed.

Lemma for_each_app {A : Type} (l1 l2 : list A) (body : A → M unit) self :
  for_each (l1 ++ l2) body self
    = match for_each l1 body self with
      | (self', Return _) => for_each l2 body self'
      | (self', Raise e) => (self', Raise e)
      end.
Proof.
  revert self. induction l1 as [|x l1 IH]; intros self; [done|].
  simpl app. rewrite !for_each_cons.
  destruct (body x self) as [self' [[]|e]]; [apply IH | done].
Qed.

(** A loop in a loop is one loop over the pairs. *)
Lemma for_each_nested {A B C : Type} (l : list C) (key : C → A) (items : C → list B)
    (body : A → B → M unit) self :
  for_each l (λ item, for_each (items item) (body (key item))) self
    = for_each (l ≫= λ item, (λ b, (key item, b)) <$> items item) (λ p, body p.1 p.2) self.
Proof.
  revert self. induction l as [|c l IH]; intros self; [done|].
  rewrite for_each_cons. simpl. rewrite for_each_app.
  assert (Hbs : ∀ bs self, for_each ((λ b, (key c, b)) <$> bs) (λ p, body p.1 p.2) self
                         = for_each bs (body (key c)) self).
  { clear. induction bs as [|b bs IHb]; intros self; [done|].
    simpl fmap. rewrite !for_each_cons. simpl.
    destruct (body (key c) b self) as [self' [[]|e]]; [apply IHb | done]. }
  rewrite Hbs. destruct (for_each (items c) (body (key c)) self) as [self' [[]|e]];
    [apply IH | done].
Qed.

(** [len(set(l)) != len(l)] holds exactly when [l] repeats an element. *)
Lemma len_set_le (l : list string) : (len_set l ≤ length l)%nat.
Proof.
  unfold len_set. induction l as [|x l IH].
  - by rewrite list_to_set_nil, size_empty.
  - rewrite list_to_set_cons, size_union_alt, size_singleton.
    assert (size ((list_to_set l : gset string) ∖ {[x]}) ≤ size (list_to_set l : gset string))%nat
      by (apply subseteq_size; set_solver).
    simpl length. lia.
Qed.

Lemma len_set_NoDup (l : list string) : len_set l = length l ↔ NoDup l.
Proof.
  split; [|apply size_list_to_set].
  unfold len_set. induction l as [|x l IH]; [constructor|].
  rewrite list_to_set_cons. simpl length. intros Hsz.
  destruct (decide (x ∈ l)) as [Hin|Hnin].
  - exfalso.
    assert ({[x]} ∪ list_to_set l = (list_to_set l : gset string)) as Heq by set_solver.
    rewrite Heq in Hsz. pose proof (len_set_le l). unfold len_set in *. lia.
  - rewrite size_union, size_singleton in Hsz by set_solver.
    constructor; [done|]. apply IH. lia.
Qed.

Lemma len_set_decide (l : list string) :
  bool_decide (len_set l ≠ length l) = negb (bool_decide (NoDup l)).
Proof.
  destruct (decide (NoDup l)) as [Hnd|Hnd].
  - rewrite (bool_decide_eq_true_2 (NoDup l)) by done.
    apply bool_decide_eq_false_2. intros Hne. by apply Hne, len_set_NoDup.
  - rewrite (bool_decide_eq_false_2 (NoDup l)) by done.
    apply bool_decide_eq_true_2. by rewrite len_set_NoDup.
Qed.

(** ** Fallbacks *)

Lemma any_without_default_true (ps : list SigParameter) :
  any_without_default ps = true ↔ ∃ p, p ∈ ps ∧ param_default p = None.
Proof.
  unfold any_without_default. induction ps as [|p ps IH]; simpl.
  - split; [done | intros (p & Hp & _); by apply elem_of_nil in Hp].
  - rewrite orb_true_iff, IH, bool_decide_eq_true. split.
    + intros [Hd | (q & Hq & Hd)]; [exists p | exists q]; split; try done; [left | by right].
    + intros (q & Hq & Hd). apply elem_of_cons in Hq as [->|Hq]; [by left | right; eauto].
Qed.

(** A declared fallback is an attribute of the component. *)
Lemma fallbacks_getattr (c : BaseComponent) (fallback_name : string) :
  fallback_name ∈ fallbacks c → is_Some (getattr_component c fallback_name).
Proof.
  unfold fallbacks, getattr_component. intros Hin.
  apply list_elem_of_fmap in Hin as (m & -> & Hm). apply list_elem_of_filter in Hm as [_ Hm].
  destruct (list_find _ (methods c)) as [[i m']|] eqn:Hfind; [by eexists|].
  apply list_find_None in Hfind. rewrite Forall_forall in Hfind. by destruct (Hfind m Hm).
Qed.

Lemma on_fail_component_refused fallback_name retries c :
  refused fallback_name c →
  ∃ msg, ∀ self,
    on_fail_component fallback_name retries c self = (self, Raise (ValueError msg)).
Proof.
  unfold on_fail_component. intros [Hnot | (m & Hget & Hp)].
  - rewrite bool_decide_eq_false_2 by done. by eexists.
  - case_bool_decide; [|by eexists]. rewrite Hget.
    apply any_without_default_true in Hp. rewrite Hp. by eexists.
Qed.

Lemma on_fail_component_accepted fallback_name retries c :
  ¬ refused fallback_name c →
  ∀ self, ∃ st,
    on_fail_component fallback_name retries c self
      = (set_heap (dict_set (heap self) c st) self, Return tt)
    ∧ ∃ action, comp_on_fail st = Some {| fallback_action := action; max_retries := retries |}.
Proof.
  unfold refused, on_fail_component. intros Hok self.
  destruct (decide (fallback_name ∈ fallbacks c)) as [Hin|Hnin]; [|destruct Hok; by left].
  rewrite bool_decide_eq_true_2 by done.
  destruct (fallbacks_getattr _ _ Hin) as [m Hget]. rewrite Hget.
  destruct (any_without_default (parameters m)) eqn:Hany.
  - destruct Hok. right. exists m. split; [done|]. by apply any_without_default_true.
  - eexists. split; [reflexivity|]. by eexists.
Qed.

Lemma refused_or_not fallback_name c :
  refused fallback_name c ∨ ¬ refused fallback_name c.
Proof.
  unfold refused. destruct (decide (fallback_name ∈ fallbacks c)) as [Hin|]; [|by left; left].
  destruct (fallbacks_getattr _ _ Hin) as [m Hget].
  destruct (any_without_default (parameters m)) eqn:Hany.
  - left. right. exists m. split; [done|]. by apply any_without_default_true.
  - right. intros [? | (m' & Hget' & Hp)]; [done|].
    rewrite Hget in Hget'. injection Hget' as <-.
    apply any_without_default_true in Hp. congruence.
Qed.

Lemma on_fail_loop fallback_name retries c (l : list BaseComponent) self :
  c ∈ l → refused fallback_name c →
  ∃ self' msg,
    for_each l (on_fail_component fallback_name retries) self
      = (self', Raise (ValueError msg))
    ∧ dict_get (heap self') c = dict_get (heap self) c
    ∧ components self' = components self.
Proof.
  intros Hin Href. revert self. induction l as [|x l IH]; intros self.
  { by apply elem_of_nil in Hin. }
  rewrite for_each_cons.
  destruct (refused_or_not fallback_name x) as [Hx|Hx].
  - destruct (on_fail_component_refused _ retries _ Hx) as [msg Hmsg].
    rewrite Hmsg. by exists self, msg.
  - destruct (on_fail_component_accepted _ retries _ Hx self) as (st & -> & _).
    assert (x ≠ c) as Hne by (intros ->; done).
    apply elem_of_cons in Hin as [->|Hin]; [done|].
    destruct (IH Hin (set_heap (dict_set (heap self) x st) self))
      as (self' & msg & -> & Hheap & Hcomps).
    exists self', msg. split; [done|]. rewrite Hheap, Hcomps. simpl.
    by rewrite dict_get_set_ne.
Qed.

(** C6 (amended).  For every component of the launcher and every call of
    [on_fail]: when the name is not one of the fallbacks of the component,
    or the method bound to it declares a parameter without a default
    value, the call itself raises [ValueError], and the component is left
    as it was: no fallback is installed on it. *)
Theorem on_fail_refuses_at_configuration (self : Launcher) (c : BaseComponent)
    (fallback_name : string) (retries : option Z) :
  c ∈ components self →
  refused fallback_name c →
  ∃ self' msg,
    on_fail fallback_name retries self = (self', Raise (ValueError msg))
    ∧ component_state self' c = component_state self c
    ∧ comp_on_fail (component_state self' c) = comp_on_fail (component_state self c).
Proof.
  intros Hin Href. unfold on_fail, read. rewrite M_bind_unfold.
  destruct (on_fail_loop fallback_name retries c (components self) self Hin Href)
    as (self' & msg & Hloop & Hheap & _).
  exists self', msg. split; [done|]. unfold component_state. by rewrite Hheap.
Qed.

(** ** Registration *)

Lemma elem_of_registrations actions_dict e a :
  (e, a) ∈ registrations actions_dict
  ↔ ∃ raw, (e, raw) ∈ actions_dict ∧ a ∈ action_set raw.
Proof.
  unfold registrations. rewrite list_elem_of_bind. split.
  - intros ([e' raw] & Hin & Hitem). simpl in Hin.
    apply list_elem_of_fmap in Hin as (a' & [= -> ->] & Ha). eauto.
  - intros (raw & Hitem & Ha). exists (e, raw). split; [|done].
    apply list_elem_of_fmap. eauto.
Qed.





Lemma rewrite_action_outcome components_list condition action self :
  (rewrite_action components_list condition action self).2
    = rewrite_outcome components_list (condition, action).
Proof.
  unfold rewrite_action, rewrite_outcome, unknown_owner. destruct action as [r|a]; [done|].
  simpl. destruct (component_action a); simpl.
  - by case_bool_decide.
  - by destruct (monitor_action a).
Qed.

Lemma rewrite_actions_outcome components_list actions_dict self :
  (__rewrite_actions_for_components components_list actions_dict self).2
    = first_raise (rewrite_outcome components_list) (registrations actions_dict).
Proof.
  unfold __rewrite_actions_for_components, registrations.
  rewrite (for_each_nested actions_dict fst (λ item, action_set item.2)
             (rewrite_action components_list)).
  apply for_each_outcome. intros [e a] s. apply rewrite_action_outcome.
Qed.



Lemma add_pkg_outcome comps pkg exe ea mp act cta self :
  process_arguments_given mp pkg exe →
  (add_pkg comps pkg exe ea mp act cta self).2
    = if truthy_opt_list ea && __enable_monitoring self
      then first_raise (rewrite_outcome comps) (registrations (default [] ea))
      else Return tt.
Proof.
  intros Hargs. unfold add_pkg.
  assert (mp && (negb (truthy_str pkg) || negb (truthy_str exe)) = false) as ->.
  { destruct mp; [|done]. destruct Hargs as [-> ->]; done. }
  rewrite M_bind_unfold. simpl.
  rewrite M_bind_unfold. unfold assign at 1.
  set (self1 := if truthy_list (components self) then _ else _).
  assert (__enable_monitoring self1 = __enable_monitoring self) as Hmon
    by (subst self1; by destruct (truthy_list (components self))).
  rewrite M_bind_unfold.
  set (activation := if truthy_opt_list cta then _ else _).
  assert (∃ self2, activation self1 = (self2, Return tt)
                   ∧ __enable_monitoring self2 = __enable_monitoring self1)
    as (self2 & -> & Hmon2).
  { subst activation. destruct (truthy_opt_list cta); [by eexists|].
    destruct act; by eexists. }
  rewrite M_bind_unfold. unfold read at 1. rewrite Hmon2, Hmon.
  rewrite M_bind_unfold.
  destruct (truthy_opt_list ea && __enable_monitoring self) eqn:Hgate.
  - pose proof (rewrite_actions_outcome comps (default [] ea) self2) as Hout.
    destruct (__rewrite_actions_for_components comps (default [] ea) self2)
      as [self3 [[]|err]]; simpl in Hout; rewrite <- Hout; [|done].
    apply for_each_no_raise. intros c s.
    rewrite M_bind_unfold. unfold read. by destruct (truthy_str (_config_file s)).
  - unfold pass at 1. simpl.
    apply for_each_no_raise. intros c s.
    rewrite M_bind_unfold. unfold read. by destruct (truthy_str (_config_file s)).
Qed.



(** ** Setup *)

Arguments len_set : simpl never.

Ltac run_M :=
  unfold mbind, M_bind, read, assign, pass, raise, mret, M_ret; csimpl.

Lemma setup_monitor_node_duplicates nodes_in_processes self :
  ¬ NoDup (node_name <$> components self)
  ∨ ¬ NoDup (name <$> dict_keys (_ros_actions self)) →
  ∃ self',
    _setup_monitor_node nodes_in_processes self
      = (self',
         Raise (if decide (NoDup (name <$> dict_keys (_ros_actions self)))
                then duplicate_components_error (node_name <$> components self)
                else duplicate_events_error))
    ∧ nothing_launched self self'.
Proof.
  intros Hdup. unfold _setup_monitor_node. run_M.
  destruct (_ros_actions self) as [|item ros] eqn:Hros; csimpl.
  - destruct Hdup as [Hdup|Hdup]; [|destruct Hdup; constructor].
    rewrite len_set_decide, bool_decide_eq_false_2 by done. csimpl.
    by exists self.
  - rewrite len_set_decide. unfold dict_keys in *.
    destruct (decide (NoDup (name <$> (item :: ros).*1))) as [Hev|Hev]; csimpl in *.
    + rewrite bool_decide_eq_true_2 by done. csimpl.
      destruct Hdup as [Hdup|Hdup]; [|done].
      rewrite len_set_decide, bool_decide_eq_false_2 by done. csimpl.
      rewrite decide_True by done.
      eexists. split; [reflexivity|]. by repeat split.
    + rewrite bool_decide_eq_false_2 by done. csimpl.
      rewrite decide_False by done.
      eexists. split; [reflexivity|]. by repeat split.
Qed.

Lemma set_heap_id self : set_heap (heap self) self = self.
Proof. by destruct self. Qed.

(** A loop over assignments to components changes the heap only. *)
Lemma for_each_heap {A : Type} (l : list A) (body : A → M unit) :
  (∀ x self, ∃ h, body x self = (set_heap h self, Return tt)) →
  ∀ self, ∃ h, for_each l body self = (set_heap h self, Return tt).
Proof.
  intros Hbody. induction l as [|x l IH]; intros self.
  - exists (heap self). by rewrite set_heap_id.
  - rewrite for_each_cons. destruct (Hbody x self) as [h ->].
    destruct (IH (set_heap h self)) as [h' ->]. by exists h'.
Qed.

Lemma configure_heap config_file component_name self :
  ∃ h, configure config_file component_name self = (set_heap h self, Return tt).
Proof.
  unfold configure. run_M. destruct (truthy_str component_name).
  - apply for_each_heap. intros c s. case_decide.
    + by eexists.
    + exists (heap s). by rewrite set_heap_id.
  - apply for_each_heap. intros c s. by eexists.
Qed.

Lemma bringup_no_components msgpack_installed config_file introspect launch_debug level self :
  components self = [] →
  bringup msgpack_installed config_file introspect launch_debug level self
    = (self, Raise no_components_error).
Proof. intros Hnil. unfold bringup. run_M. by rewrite Hnil. Qed.

Lemma bringup_duplicates msgpack_installed config_file introspect launch_debug level self :
  components self ≠ [] →
  ¬ NoDup (node_name <$> components self)
  ∨ ¬ NoDup (name <$> dict_keys (_ros_actions self)) →
  ∃ self',
    bringup msgpack_installed config_file introspect launch_debug level self
      = (self',
         Raise (if decide (NoDup (name <$> dict_keys (_ros_actions self)))
                then duplicate_components_error (node_name <$> components self)
                else duplicate_events_error))
    ∧ nothing_launched self self'.
Proof.
  intros Hne Hdup. unfold bringup. run_M.
  assert (truthy_list (components self) = true) as -> by (by destruct (components self)).
  csimpl.
  assert (∃ h, (if truthy_str config_file
                then configure (default "" config_file) None
                else λ self, (self, Return tt)) self
               = (set_heap h self, Return tt)) as [h ->].
  { destruct (truthy_str config_file); [apply configure_heap|].
    exists (heap self). by rewrite set_heap_id. }
  destruct (setup_monitor_node_duplicates true (set_heap h self) Hdup)
    as (self' & -> & Hsame).
  by exists self'.
Qed.

(** ** Order of registration and of dispatch *)

Lemma under_cons e e0 a pairs :
  under e ((e0, a) :: pairs) = if decide (e0 = e) then a :: under e pairs else under e pairs.
Proof.
  unfold under. rewrite filter_cons. simpl. by destruct (decide (e0 = e)).
Qed.

Lemma registered_after_refl self e : registered_after self self e [].
Proof. unfold registered_after. by rewrite !app_nil_r. Qed.

Lemma registered_after_step self self1 self' e a l :
  registered_after self self1 e [a] → registered_after self1 self' e l →
  registered_after self self' e (a :: l).
Proof.
  unfold registered_after, ros_part, component_part, monitor_part.
  intros (Hr1 & Hc1 & Hm1) (Hr & Hc & Hm). rewrite Hr, Hc, Hm, Hr1, Hc1, Hm1.
  rewrite <- !(assoc_L (++)).
  change (a :: l) with ([a] ++ l). by rewrite filter_app, !omap_app.
Qed.

Lemma registered_after_skip self self1 self' e l :
  registered_after self self1 e [] → registered_after self1 self' e l →
  registered_after self self' e l.
Proof.
  unfold registered_after. intros (Hr1 & Hc1 & Hm1) (Hr & Hc & Hm).
  rewrite Hr, Hc, Hm, Hr1, Hc1, Hm1. simpl. by rewrite !app_nil_r.
Qed.

(** One registration: the action goes to the end of the list of its
    event in its registry; the lists of the other events stay. *)
Lemma rewrite_action_registered comps e0 a self self' e :
  rewrite_action comps e0 a self = (self', Return tt) →
  registered_after self self' e (if decide (e0 = e) then [a] else []).
Proof.
  unfold rewrite_action, registered_after, ros_part, component_part, monitor_part.
  destruct a as [r|a].
  - intros [= <-]. simpl. rewrite update_dict_list_default.
    destruct (decide (e0 = e)); simpl; by rewrite ?app_nil_r.
  - destruct (component_action a) eqn:Hca.
    + case_bool_decide; [done|]. intros [= <-]. simpl.
      rewrite update_dict_list_default.
      destruct (decide (e0 = e)); simpl; rewrite ?Hca; simpl; by rewrite ?app_nil_r.
    + destruct (monitor_action a) eqn:Hma.
      * intros [= <-]. simpl. rewrite update_dict_list_default.
        destruct (decide (e0 = e)); simpl; rewrite ?Hca, ?Hma; simpl; by rewrite ?app_nil_r.
      * intros [= <-]. simpl.
        destruct (decide (e0 = e)); simpl; rewrite ?Hca, ?Hma; simpl; by rewrite ?app_nil_r.
Qed.

Lemma rewrite_actions_registered comps actions_dict self self' e :
  __rewrite_actions_for_components comps actions_dict self = (self', Return tt) →
  registered_after self self' e (under e (registrations actions_dict)).
Proof.
  unfold __rewrite_actions_for_components.
  rewrite (for_each_nested actions_dict fst (λ item, action_set item.2)
             (rewrite_action comps)).
  fold (registrations actions_dict). generalize (registrations actions_dict).
  intros pairs. revert self. induction pairs as [|[e0 a] pairs IH]; intros self.
  - intros [= <-]. apply registered_after_refl.
  - rewrite for_each_cons. simpl.
    destruct (rewrite_action comps e0 a self) as [self1 [[]|err]] eqn:Hstep; [|done].
    intros Hrest. apply IH in Hrest.
    apply (rewrite_action_registered _ _ _ _ _ e) in Hstep.
    rewrite under_cons. destruct (decide (e0 = e)).
    + by eapply registered_after_step.
    + by eapply registered_after_skip.
Qed.

(** [add_pkg] after the test of its arguments: the components are stored,
    the dictionary is registered if there is one and monitoring is on, the
    components are configured. *)
Lemma add_pkg_steps comps pkg exe ea mp act cta self :
  mp && (negb (truthy_str pkg) || negb (truthy_str exe)) = false →
  ∃ self2,
    same_registries self self2
    ∧ __enable_monitoring self2 = __enable_monitoring self
    ∧ add_pkg comps pkg exe ea mp act cta self
      = match (if truthy_opt_list ea && __enable_monitoring self
               then __rewrite_actions_for_components comps (default [] ea)
               else pass) self2 with
        | (self3, Return _) =>
            for_each comps (λ component,
              config_file ← read _config_file ;
              if truthy_str config_file
              then component_configure component (default "" config_file) true
              else pass) self3
        | (self3, Raise err) => (self3, Raise err)
        end.
Proof.
  intros Hcheck. unfold add_pkg. rewrite Hcheck.
  rewrite M_bind_unfold. simpl.
  rewrite M_bind_unfold. unfold assign at 1.
  set (self1 := if truthy_list (components self) then _ else _).
  assert (same_registries self self1 ∧ __enable_monitoring self1 = __enable_monitoring self)
    as [Hreg Hmon] by (subst self1; by destruct (truthy_list (components self))).
  rewrite M_bind_unfold.
  set (activation := if truthy_opt_list cta then _ else _).
  assert (∃ self2, activation self1 = (self2, Return tt)
                   ∧ same_registries self1 self2
                   ∧ __enable_monitoring self2 = __enable_monitoring self1)
    as (self2 & -> & Hreg2 & Hmon2).
  { subst activation. destruct (truthy_opt_list cta); [by eexists|].
    destruct act; by eexists. }
  exists self2. split; [|split].
  - unfold same_registries in *. destruct Hreg as (? & ? & ?), Hreg2 as (? & ? & ?).
    repeat split; congruence.
  - congruence.
  - rewrite M_bind_unfold. unfold read at 1. rewrite Hmon2, Hmon.
    by rewrite M_bind_unfold.
Qed.

Lemma configure_loop_heap (comps : list BaseComponent) self :
  ∃ h, for_each comps (λ component,
         config_file ← read _config_file ;
         if truthy_str config_file
         then component_configure component (default "" config_file) true
         else pass) self
       = (set_heap h self, Return tt).
Proof.
  apply for_each_heap. intros c s. run_M. destruct (truthy_str (_config_file s)).
  - by eexists.
  - exists (heap s). by rewrite set_heap_id.
Qed.

Lemma add_pkg_registered comps pkg exe ea mp act cta self self' e :
  add_pkg comps pkg exe (Some ea) mp act cta self = (self', Return tt) →
  __enable_monitoring self = true → ea ≠ [] →
  registered_after self self' e (under e (registrations ea)).
Proof.
  intros Hadd Hmon Hea.
  destruct (mp && (negb (truthy_str pkg) || negb (truthy_str exe))) eqn:Hcheck.
  { unfold add_pkg in Hadd. by rewrite Hcheck in Hadd. }
  destruct (add_pkg_steps comps pkg exe (Some ea) mp act cta self Hcheck)
    as (self2 & (Hr & Hc & Hm) & _ & Heq).
  rewrite Heq in Hadd. rewrite Hmon in Hadd.
  assert (truthy_opt_list (Some ea) = true) as Htruthy by (by destruct ea).
  rewrite Htruthy in Hadd. simpl in Hadd.
  destruct (__rewrite_actions_for_components comps ea self2) as [self3 [[]|err]] eqn:Hrw;
    [|done].
  destruct (configure_loop_heap comps self3) as [h Hconf]. rewrite Hconf in Hadd.
  injection Hadd as <-.
  apply (rewrite_actions_registered _ _ _ _ e) in Hrw.
  unfold registered_after in *. simpl. by rewrite <- Hr, <- Hc, <- Hm.
Qed.

(** An event registered with a ROS launch action is an internal event of
    the launcher. *)
Lemma add_pkg_internal_event comps pkg exe ea mp act cta self self' e raw r :
  add_pkg comps pkg exe (Some ea) mp act cta self = (self', Return tt) →
  __enable_monitoring self = true →
  (e, raw) ∈ ea → ROS r ∈ action_set raw →
  e ∈ dict_keys (_ros_actions self').
Proof.
  intros Hadd Hmon Hraw Hr.
  assert (ea ≠ []) as Hea by (intros ->; by apply elem_of_nil in Hraw).
  destruct (add_pkg_registered _ _ _ _ _ _ _ _ _ e Hadd Hmon Hea) as (Hros & _).
  destruct (decide (e ∈ dict_keys (_ros_actions self'))) as [|Hnot]; [done|].
  apply dict_get_None in Hnot. rewrite Hnot in Hros. simpl in Hros.
  assert (ROS r ∈ ros_part (under e (registrations ea))) as Hin.
  { unfold ros_part, under. apply list_elem_of_filter. split; [done|].
    apply list_elem_of_fmap. exists (e, ROS r). split; [done|].
    apply list_elem_of_filter. split; [done|]. apply elem_of_registrations. eauto. }
  symmetry in Hros. apply app_eq_nil in Hros as [_ Hnil].
  rewrite Hnil in Hin. by apply elem_of_nil in Hin.
Qed.

Lemma dict_get_Some {K V : Type} `{EqDecision K} (d : list (K * V)) k v :
  dict_get d k = Some v → (k, v) ∈ d.
Proof.
  induction d as [|[k0 v0] d IH]; simpl; [done|].
  destruct (decide (k0 = k)) as [->|]; [intros [= ->]; left | intros ?; right; auto].
Qed.

Lemma dict_set_Forall {K V : Type} `{EqDecision K} (P : K * V → Prop) (d : list (K * V)) k v :
  Forall P d → P (k, v) → Forall P (dict_set d k v).
Proof.
  intros Hd Hkv. induction Hd as [|[k0 v0] d Hx Hd IH]; simpl.
  - by constructor.
  - destruct (decide (k0 = k)); by constructor.
Qed.

Lemma update_dict_list_Forall {K V : Type} `{EqDecision K} (Q : V → Prop)
    (d : list (K * list V)) k v :
  Forall (λ item, Forall Q item.2) d → Q v →
  Forall (λ item, Forall Q item.2) (__update_dict_list d k v).
Proof.
  intros Hd Hv. unfold __update_dict_list.
  destruct (dict_get d k) as [[|x l]|] eqn:Hget;
    apply dict_set_Forall; try done; simpl; try by repeat constructor.
  apply dict_get_Some in Hget. rewrite Forall_forall in Hd. specialize (Hd _ Hget).
  simpl in Hd. change (x :: l ++ [v]) with ((x :: l) ++ [v]).
  apply Forall_app. split; [done | by repeat constructor].
Qed.

Lemma for_each_invariant {A : Type} (P : Launcher → Prop) (l : list A) (body : A → M unit) :
  (∀ x self, P self → P (body x self).1) →
  ∀ self, P self → P (for_each l body self).1.
Proof.
  intros Hbody. induction l as [|x l IH]; intros self HP; [done|].
  rewrite for_each_cons. specialize (Hbody x self HP).
  destruct (body x self) as [self' [[]|err]]; simpl in *; [by apply IH | done].
Qed.

Lemma rewrite_action_ros_only comps e a self :
  ros_only self → ros_only (rewrite_action comps e a self).1.
Proof.
  unfold ros_only, rewrite_action. intros Hself. destruct a as [r|a]; simpl.
  - by apply update_dict_list_Forall.
  - destruct (component_action a); [by case_bool_decide|]. by destruct (monitor_action a).
Qed.

(** Registration keeps [_ros_actions] to ROS launch actions. *)
Lemma add_pkg_ros_only comps pkg exe ea mp act cta self :
  ros_only self → ros_only (add_pkg comps pkg exe ea mp act cta self).1.
Proof.
  intros Hself.
  destruct (mp && (negb (truthy_str pkg) || negb (truthy_str exe))) eqn:Hcheck.
  { unfold add_pkg. by rewrite Hcheck. }
  destruct (add_pkg_steps comps pkg exe ea mp act cta self Hcheck)
    as (self2 & (Hr & _ & _) & _ & ->).
  assert (ros_only self2) as Hself2 by (unfold ros_only; by rewrite Hr).
  set (reg := if truthy_opt_list ea && __enable_monitoring self then _ else _).
  assert (ros_only (reg self2).1) as Hreg.
  { subst reg. destruct (truthy_opt_list ea && __enable_monitoring self); [|done].
    unfold __rewrite_actions_for_components.
    apply for_each_invariant; [|done]. intros item s Hs.
    apply for_each_invariant; [|done]. intros a s'. apply rewrite_action_ros_only. }
  destruct (reg self2) as [self3 [[]|err]]; [|done].
  destruct (configure_loop_heap comps self3) as [h ->]. done.
Qed.

Lemma init_ros_only namespace config_file enable_monitoring :
  ros_only (init namespace config_file enable_monitoring).
Proof. constructor. Qed.

Lemma event_entities_ros self nodes_in_processes entities (l : list AnyAction) :
  Forall (λ a, is_ros a = true) l →
  event_entities self nodes_in_processes entities l = Return (entities ++ passthrough l).
Proof.
  intros Hl. revert entities. induction Hl as [|a l Ha Hl IH]; intros entities; simpl.
  - by rewrite app_nil_r.
  - destruct a as [r|a]; [|done]. simpl. rewrite IH. by rewrite <- (assoc_L (++)).
Qed.

Lemma set_description_id self : set_description (_description self) self = self.
Proof. by destruct self. Qed.

(** The handlers are registered in the order of [_ros_actions], and the
    entities of each are the log action followed by the actions of the
    event in the order of its list. *)
Lemma setup_internal_events_handlers_ros nodes_in_processes self :
  ros_only self →
  _setup_internal_events_handlers nodes_in_processes self
    = (set_description (_description self ++ (internal_event_handler <$> _ros_actions self))
         self,
       Return tt).
Proof.
  unfold ros_only, _setup_internal_events_handlers. intros Hros.
  rewrite M_bind_unfold. unfold read at 1.
  generalize dependent (_ros_actions self). intros items Hros.
  assert (∀ s, for_each items (λ item,
             self0 ← read id ;
             entities ← lift (event_entities self0 nodes_in_processes
                                [log_action item.1] item.2) ;
             assign (λ self1,
               set_description
                 (_description self1 ++ [RegisterEventHandler (name item.1) entities])
                 self1)) s
           = (set_description (_description s ++ (internal_event_handler <$> items)) s,
              Return tt)) as Hloop.
  { induction Hros as [|item items Hitem Hitems IH]; intros s.
    - simpl. by rewrite app_nil_r, set_description_id.
    - rewrite for_each_cons. run_M. unfold lift.
      rewrite event_entities_ros by done. rewrite IH. simpl.
      by rewrite <- (assoc_L (++)). }
  destruct items as [|item items]; [|apply Hloop].
  simpl. by rewrite app_nil_r, set_description_id.
Qed.

Lemma NoDup_fmap_lookup {A B : Type} (f : A → B) (l : list A) i j x y :
  NoDup (f <$> l) → l !! i = Some x → l !! j = Some y → f x = f y → i = j.
Proof.
  intros Hnd Hi Hj Hf. eapply (NoDup_lookup _ i j (f x)); [done| |].
  - by rewrite list_lookup_fmap, Hi.
  - by rewrite list_lookup_fmap, Hj, Hf.
Qed.

Lemma duplicate_names_not_NoDup {A : Type} (f : A → string) (l : list A) x y :
  x ∈ l → y ∈ l → x ≠ y → f x = f y → ¬ NoDup (f <$> l).
Proof.
  intros [i Hi]%list_elem_of_lookup [j Hj]%list_elem_of_lookup Hne Hf Hnd.
  assert (i = j) as -> by (by eapply NoDup_fmap_lookup). congruence.
Qed.

(** C3 (amended).  Two distinct internal events, that is two events that
    both hold ROS launch actions in the launcher, with one name: the setup
    of the monitor raises the error of duplicate event names, [bringup]
    fails with a [ValueError] before anything is launched, and the list of
    one of the events is never touched by a registration under the other. *)
Theorem bringup_duplicate_internal_event_names (msgpack_installed : bool)
    (config_file : option string) (introspect launch_debug nodes_in_processes : bool)
    (level : string) (self : Launcher) (e1 e2 : Event) :
  e1 ∈ dict_keys (_ros_actions self) → e2 ∈ dict_keys (_ros_actions self) →
  e1 ≠ e2 → name e1 = name e2 →
  (∃ self', _setup_monitor_node nodes_in_processes self
              = (self', Raise duplicate_events_error)
            ∧ nothing_launched self self')
  ∧ (∃ self' msg,
       bringup msgpack_installed config_file introspect launch_debug level self
         = (self', Raise (ValueError msg))
       ∧ nothing_launched self self')
  ∧ (∀ (d : list (Event * list AnyAction)) (v : AnyAction),
       dict_get (__update_dict_list d e1 v) e2 = dict_get d e2).
Proof.
  intros H1 H2 Hne Hname.
  assert (¬ NoDup (name <$> dict_keys (_ros_actions self))) as Hdup
    by (by apply (duplicate_names_not_NoDup name _ e1 e2)).
  split; [|split].
  - destruct (setup_monitor_node_duplicates nodes_in_processes self) as (self' & Heq & Hsame);
      [by right|].
    rewrite decide_False in Heq by done. by exists self'.
  - destruct (decide (components self = [])) as [Hnil|Hcomps].
    + eexists _, _. split; [by apply bringup_no_components|]. by repeat split.
    + destruct (bringup_duplicates msgpack_installed config_file introspect launch_debug
                  level self Hcomps) as (self' & Heq & Hsame); [by right|].
      rewrite decide_False in Heq by done. by eexists _, _.
  - intros d v. by apply update_dict_list_get_ne.
Qed.

(** C4 (amended).  Two components of the launcher with one node name:
    [bringup] fails with a [ValueError] and nothing is launched.  The error
    is the one of duplicate component names, whose message lists the node
    names of all components, the shared one among them, unless two
    internal events share a name: that is found first and reported
    instead. *)
Theorem bringup_duplicate_component_names (msgpack_installed : bool)
    (config_file : option string) (introspect launch_debug : bool) (level : string)
    (self : Launcher) (i j : nat) (c1 c2 : BaseComponent) :
  components self !! i = Some c1 → components self !! j = Some c2 →
  i ≠ j → node_name c1 = node_name c2 →
  ∃ self' err,
    bringup msgpack_installed config_file introspect launch_debug level self
      = (self', Raise err)
    ∧ nothing_launched self self'
    ∧ ((NoDup (name <$> dict_keys (_ros_actions self))
        ∧ err = duplicate_components_error (node_name <$> components self)
        ∧ mentions (node_name c1) (message err))
       ∨ (¬ NoDup (name <$> dict_keys (_ros_actions self))
          ∧ err = duplicate_events_error)).
Proof.
  intros Hi Hj Hne Hname.
  assert (¬ NoDup (node_name <$> components self)) as Hdup.
  { intros Hnd. by destruct Hne; eapply NoDup_fmap_lookup. }
  assert (components self ≠ []) as Hcomps by (by intros Hnil; rewrite Hnil in Hi).
  destruct (bringup_duplicates msgpack_installed config_file introspect launch_debug
              level self Hcomps) as (self' & Heq & Hsame); [by left|].
  eexists self', _. split; [exact Heq|]. split; [done|].
  destruct (decide (NoDup (name <$> dict_keys (_ros_actions self)))) as [Hev|Hev].
  - left. repeat split; try done. right. exists (node_name <$> components self). split.
    + unfold duplicate_components_error. simpl. set_solver.
    + apply list_elem_of_fmap. exists c1. split; [done|]. by eapply list_elem_of_lookup_2.
  - by right.
Qed.

(** ** Counterexamples and instances *)

(** C3, as stated, fails: two events of one name registered with actions
    of the supervisor only pass the setup, and [bringup] starts the launch
    service. *)
Lemma bringup_accepts_duplicate_monitor_event_names :
  name event_E1 = name event_E1_again
  ∧ event_E1 ≠ event_E1_again
  ∧ add_pkg [component_B] None (Some "executable") (Some two_monitor_events) false true
      None (init "" None true)
    = (launcher_two_monitor_events, Return tt)
  ∧ dict_keys (_monitor_actions launcher_two_monitor_events) = [event_E1; event_E1_again]
  ∧ (bringup true None false false "info" launcher_two_monitor_events).2 = Return tt
  ∧ is_Some (ls (bringup true None false false "info" launcher_two_monitor_events).1).
Proof.
  split; [reflexivity|]. split; [discriminate|]. split; [vm_compute; reflexivity|].
  split; [reflexivity|].
  split; [vm_compute; reflexivity | vm_compute; by eexists].
Qed.

Lemma bringup_duplicate_internal_event_names_witness :
  ∃ self' msg,
    bringup true None false false "info" launcher_two_internal_events
      = (self', Raise (ValueError msg))
    ∧ nothing_launched launcher_two_internal_events self'.
Proof.
  apply (bringup_duplicate_internal_event_names true None false false true "info"
           launcher_two_internal_events event_E1 event_E1_again).
  - vm_compute. left.
  - vm_compute. right. left.
  - discriminate.
  - reflexivity.
Defined.

(** C4, as stated, fails: with two components named [A] and two internal
    events named [E1], the error [bringup] raises is the one of duplicate
    event names, whose message names no component. *)
Lemma bringup_reports_duplicate_events_first :
  add_pkg [component_A; component_A_again] None (Some "executable")
    (Some two_internal_events) false true None (init "" None true)
  = (launcher_two_duplicates, Return tt)
  ∧ node_name <$> components launcher_two_duplicates = ["A"; "A"]
  ∧ (bringup true None false false "info" launcher_two_duplicates).2
    = Raise duplicate_events_error
  ∧ ¬ mentions "A" (message duplicate_events_error).
Proof.
  split; [vm_compute; reflexivity|].
  split; [reflexivity|]. split; [vm_compute; reflexivity|].
  intros [Hin | (l & Hin & _)].
  - apply list_elem_of_singleton in Hin. discriminate Hin.
  - apply list_elem_of_singleton in Hin. discriminate Hin.
Qed.

Lemma bringup_duplicate_component_names_witness :
  ∃ self' err,
    bringup true None false false "info" launcher_two_components = (self', Raise err)
    ∧ nothing_launched launcher_two_components self'
    ∧ ((NoDup (name <$> dict_keys (_ros_actions launcher_two_components))
        ∧ err = duplicate_components_error
                  (node_name <$> components launcher_two_components)
        ∧ mentions (node_name component_A) (message err))
       ∨ (¬ NoDup (name <$> dict_keys (_ros_actions launcher_two_components))
          ∧ err = duplicate_events_error)).
Proof.
  apply (bringup_duplicate_component_names true None false false "info"
           launcher_two_components 0 1 component_A component_A_again);
    [reflexivity | reflexivity | discriminate | reflexivity].
Defined.





(** C6, as stated, fails: [restart] is a fallback of the first component
    and not of the second; the call raises [ValueError] for the second
    after it installed the fallback on the first. *)
Lemma on_fail_installs_before_refusal :
  let result := on_fail "restart" (Some 2%Z) launcher_with_fallbacks in
  components launcher_with_fallbacks = [component_with_fallbacks 0 "A"; component_B]
  ∧ fallbacks (component_with_fallbacks 0 "A") = ["restart"; "reconfigure"]
  ∧ fallbacks component_B = []
  ∧ (∃ msg, result.2 = Raise (ValueError msg))
  ∧ comp_on_fail (component_state launcher_with_fallbacks (component_with_fallbacks 0 "A"))
    = None
  ∧ comp_on_fail (component_state result.1 (component_with_fallbacks 0 "A"))
    = Some {| fallback_action :=
                component_action_for (component_with_fallbacks 0 "A") "restart";
              max_retries := Some 2%Z |}.
Proof.
  split; [reflexivity|]. split; [reflexivity|]. split; [reflexivity|].
  split; [vm_compute; by eexists|].
  split; vm_compute; reflexivity.
Qed.

Lemma on_fail_refuses_at_configuration_witness :
  (∃ self' msg,
     on_fail "restart" (Some 2%Z) launcher_with_fallbacks = (self', Raise (ValueError msg))
     ∧ component_state self' component_B
       = component_state launcher_with_fallbacks component_B
     ∧ comp_on_fail (component_state self' component_B)
       = comp_on_fail (component_state launcher_with_fallbacks component_B))
  ∧ (∃ self' msg,
       on_fail "reconfigure" None launcher_with_fallbacks
         = (self', Raise (ValueError msg))
       ∧ component_state self' (component_with_fallbacks 0 "A")
         = component_state launcher_with_fallbacks (component_with_fallbacks 0 "A")
       ∧ comp_on_fail (component_state self' (component_with_fallbacks 0 "A"))
         = comp_on_fail
             (component_state launcher_with_fallbacks (component_with_fallbacks 0 "A"))).
Proof.
  split.
  - apply (on_fail_refuses_at_configuration launcher_with_fallbacks component_B
             "restart" (Some 2%Z)).
    + right. left.
    + left. apply not_elem_of_nil.
  - apply (on_fail_refuses_at_configuration launcher_with_fallbacks
             (component_with_fallbacks 0 "A") "reconfigure" None).
    + left.
    + right. eexists. split; [reflexivity|]. eexists. split; [left | reflexivity].
Defined.


(** * More of the launcher: properties *)

(** ** [add_pkg] *)

(** X1.  A multi-process call of [add_pkg] without a package name or
    without an entry point (a missing one or an empty string) raises
    [ValueError] and leaves the launcher as it was: no component is
    added. *)
Theorem add_pkg_multiprocessing_needs_package comps pkg exe ea act cta self :
  truthy_str pkg = false ∨ truthy_str exe = false →
  ∃ msg, add_pkg comps pkg exe ea true act cta self = (self, Raise (ValueError msg)).
Proof.
  intros Hmissing. unfold add_pkg.
  assert (true && (negb (truthy_str pkg) || negb (truthy_str exe)) = true) as ->
    by (destruct Hmissing as [-> | ->]; simpl; [done | by rewrite orb_true_r]).
  by eexists.
Qed.

Lemma add_pkg_multiprocessing_needs_package_witness :
  ∃ msg, add_pkg [component_A] (Some "") (Some "executable") None true true None
           (init "" None true)
         = (init "" None true, Raise (ValueError msg)).
Proof.
  apply (add_pkg_multiprocessing_needs_package [component_A] (Some "")
           (Some "executable") None true None (init "" None true)).
  left. reflexivity.
Defined.

Lemma process_arguments_check mp pkg exe :
  process_arguments_given mp pkg exe →
  mp && (negb (truthy_str pkg) || negb (truthy_str exe)) = false.
Proof. intros Hargs. destruct mp; [|done]. by destruct Hargs as [-> ->]. Qed.

(** The state after the components were stored and the activation set
    was updated. *)
Lemma add_pkg_steps_components comps pkg exe ea mp act cta self :
  process_arguments_given mp pkg exe →
  ∃ self' out,
    add_pkg comps pkg exe ea mp act cta self = (self', out)
    ∧ components self' = components self ++ comps
    ∧ _pkg_executable self'
      = (if components self is [] then [] else _pkg_executable self)
          ++ replicate (length comps) (package_pair mp pkg exe)
    ∧ __components_to_activate_on_start self'
      = dict_update (__components_to_activate_on_start self)
          ((λ c, (c, mp)) <$> chosen_for_activation comps act cta).
Proof.
  intros Hargs. unfold add_pkg. rewrite process_arguments_check by done.
  rewrite M_bind_unfold. simpl.
  rewrite M_bind_unfold. unfold assign at 1.
  set (self1 := if truthy_list (components self) then _ else _).
  assert (components self1 = components self ++ comps
          ∧ _pkg_executable self1
            = (if components self is [] then [] else _pkg_executable self)
                ++ replicate (length comps) (package_pair mp pkg exe)
          ∧ __components_to_activate_on_start self1 = __components_to_activate_on_start self)
    as (Hc1 & Hp1 & Ha1).
  { subst self1. unfold package_pair. destruct (components self); simpl; by destruct mp. }
  rewrite M_bind_unfold.
  set (activation := if truthy_opt_list cta then _ else _).
  assert (∃ self2, activation self1 = (self2, Return tt)
                   ∧ components self2 = components self1
                   ∧ _pkg_executable self2 = _pkg_executable self1
                   ∧ __components_to_activate_on_start self2
                     = dict_update (__components_to_activate_on_start self1)
                         ((λ c, (c, mp)) <$> chosen_for_activation comps act cta))
    as (self2 & -> & Hc2 & Hp2 & Ha2).
  { subst activation. unfold chosen_for_activation.
    destruct (truthy_opt_list cta); [by eexists|]. destruct act; by eexists. }
  rewrite M_bind_unfold. unfold read at 1. rewrite M_bind_unfold.
  set (reg := if truthy_opt_list ea && __enable_monitoring self2 then _ else _).
  pose (f := λ s : Launcher,
          (components s, _pkg_executable s, __components_to_activate_on_start s)).
  assert (f (reg self2).1 = f self2) as Hreg.
  { subst reg. destruct (truthy_opt_list ea && __enable_monitoring self2); [|done].
    unfold __rewrite_actions_for_components. apply for_each_frame. intros item s.
    apply for_each_frame. intros a s'. unfold rewrite_action.
    destruct a as [r|a]; [done|]. destruct (component_action a).
    - by case_bool_decide.
    - by destruct (monitor_action a). }
  destruct (reg self2) as [self3 [[]|err]]; simpl in Hreg;
    injection Hreg as Hc3 Hp3 Ha3.
  - destruct (configure_loop_heap comps self3) as [h ->].
    eexists _, _. split; [reflexivity|]. simpl. repeat split; congruence.
  - eexists _, _. split; [reflexivity|]. repeat split; congruence.
Qed.

(** X2.  A call of [add_pkg] that passes the test of its multi-process
    arguments stores its components behind the ones the launcher has,
    with one package pair each, whether or not the call then raises for an
    event action; without multi-processing the pair is [(None, None)]
    whatever package name was given.  The list of the call is a list of
    its own, as everywhere in this development: the launcher keeps the
    list object of its first call, and a caller that passes that very
    object again, or changes it afterwards, is not described here. *)
Theorem add_pkg_stores_components comps pkg exe ea mp act cta self :
  process_arguments_given mp pkg exe →
  length (_pkg_executable self) = length (components self) →
  components (add_pkg comps pkg exe ea mp act cta self).1 = components self ++ comps
  ∧ _pkg_executable (add_pkg comps pkg exe ea mp act cta self).1
    = _pkg_executable self ++ replicate (length comps) (package_pair mp pkg exe)
  ∧ package_pair false pkg exe = (None, None).
Proof.
  intros Hargs Hlen.
  destruct (add_pkg_steps_components comps pkg exe ea mp act cta self Hargs)
    as (self' & out & -> & Hc & Hp & _).
  split; [done|]. split; [|done]. simpl. rewrite Hp.
  destruct (components self); [|done]. by destruct (_pkg_executable self).
Qed.

Lemma add_pkg_stores_components_witness :
  components (add_pkg [component_B] None (Some "executable") (Some events_for_A) false
                true None launcher_two_components).1
    = [component_A; component_A_again; component_B]
  ∧ _pkg_executable (add_pkg [component_B] None (Some "executable") (Some events_for_A)
                       false true None launcher_two_components).1
    = [(None, None); (None, None); (None, None)]
  ∧ package_pair false None (Some "executable") = (None, None).
Proof.
  apply (add_pkg_stores_components [component_B] None (Some "executable")
           (Some events_for_A) false true None launcher_two_components).
  - intros Hmp. discriminate Hmp.
  - reflexivity.
Defined.

Lemma M_bind_ext (P : Launcher → Prop) {A B : Type} (m : M A) (f g : A → M B) self :
  P self → (∀ s, P s → P (m s).1) → (∀ a s, P s → f a s = g a s) →
  (m ≫= f) self = (m ≫= g) self.
Proof.
  intros HP Hm Hfg. rewrite (M_bind_unfold m f), (M_bind_unfold m g).
  specialize (Hm self HP). destruct (m self) as [s [a|e]]; [by apply Hfg | done].
Qed.

Lemma process_arguments_refused mp pkg exe :
  ¬ process_arguments_given mp pkg exe →
  mp && (negb (truthy_str pkg) || negb (truthy_str exe)) = true.
Proof.
  intros Hnot. destruct mp; [|by destruct Hnot].
  destruct (truthy_str pkg) eqn:Hp; [|done]. destruct (truthy_str exe) eqn:He; [|done].
  by destruct Hnot.
Qed.

(** A call that does not pass the test of its multi-process arguments
    raises before it assigns anything. *)
Lemma add_pkg_refused comps pkg exe ea mp act cta self :
  ¬ process_arguments_given mp pkg exe →
  ∃ msg, add_pkg comps pkg exe ea mp act cta self = (self, Raise (ValueError msg)).
Proof.
  intros Hnot. unfold add_pkg. rewrite process_arguments_refused by done. by eexists.
Qed.

(** X3.  On a launcher with monitoring disabled, [add_pkg] never reads
    the events/actions dictionary: whatever the dictionary holds, the call
    does exactly what it does without one, and the three registries stay
    as they were.  The call returns normally when it passes the test of
    its multi-process arguments, and raises the [ValueError] of that test
    when it does not. *)
Theorem add_pkg_without_monitoring comps pkg exe ea mp act cta self :
  __enable_monitoring self = false →
  add_pkg comps pkg exe ea mp act cta self = add_pkg comps pkg exe None mp act cta self
  ∧ same_registries self (add_pkg comps pkg exe ea mp act cta self).1
  ∧ (process_arguments_given mp pkg exe →
     (add_pkg comps pkg exe ea mp act cta self).2 = Return tt)
  ∧ (¬ process_arguments_given mp pkg exe →
     ∃ msg, (add_pkg comps pkg exe ea mp act cta self).2 = Raise (ValueError msg)).
Proof.
  intros Hmon. split; [|split; [|split]].
  - unfold add_pkg.
    set (P := λ s : Launcher, __enable_monitoring s = false).
    apply (M_bind_ext P); [done| |].
    { intros s Hs. by destruct (mp && _). }
    intros [] s Hs.
    apply (M_bind_ext P); [done| |].
    { intros s' Hs'. unfold assign. simpl. by destruct (truthy_list (components s')). }
    intros [] s1 Hs1.
    apply (M_bind_ext P); [done| |].
    { intros s' Hs'. destruct (truthy_opt_list cta); [done|]. by destruct act. }
    intros [] s2 Hs2.
    rewrite !M_bind_unfold. unfold read. rewrite Hs2. by rewrite !andb_false_r.
  - destruct (mp && (negb (truthy_str pkg) || negb (truthy_str exe))) eqn:Hcheck.
    { unfold add_pkg. by rewrite Hcheck. }
    destruct (add_pkg_steps comps pkg exe ea mp act cta self Hcheck)
      as (self2 & Hreg & _ & ->).
    rewrite Hmon, andb_false_r. change (pass self2) with (self2, @Return unit tt).
    cbv beta iota.
    destruct (configure_loop_heap comps self2) as [h ->]. by simpl.
  - intros Hargs. rewrite add_pkg_outcome by done. by rewrite Hmon, andb_false_r.
  - intros Hnot. destruct (add_pkg_refused comps pkg exe ea mp act cta self Hnot)
      as [msg ->]. by exists msg.
Qed.

Lemma add_pkg_without_monitoring_witness :
  (add_pkg [component_B] None (Some "executable") (Some events_for_A) false true None
     (init "" None false)
   = add_pkg [component_B] None (Some "executable") None false true None
       (init "" None false)
   ∧ same_registries (init "" None false)
       (add_pkg [component_B] None (Some "executable") (Some events_for_A) false true None
          (init "" None false)).1)
  ∧ (add_pkg [component_B] None (Some "executable") (Some events_for_A) false true None
       (init "" None false)).2 = Return tt
  ∧ ∃ msg, (add_pkg [component_B] None (Some "executable") (Some events_for_A) true true
              None (init "" None false)).2 = Raise (ValueError msg).
Proof.
  split; [|split].
  - split;
      apply (add_pkg_without_monitoring [component_B] None (Some "executable")
               (Some events_for_A) false true None (init "" None false));
      reflexivity.
  - apply (add_pkg_without_monitoring [component_B] None (Some "executable")
             (Some events_for_A) false true None (init "" None false)).
    + reflexivity.
    + intros Hmp. discriminate Hmp.
  - apply (add_pkg_without_monitoring [component_B] None (Some "executable")
             (Some events_for_A) true true None (init "" None false)).
    + reflexivity.
    + intros Hargs. by destruct (Hargs eq_refl).
Defined.

Lemma dict_update_get {K V : Type} `{EqDecision K} (d : list (K * V)) (l : list K) (v : V) k :
  dict_get (dict_update d ((λ c, (c, v)) <$> l)) k
    = if decide (k ∈ l) then Some v else dict_get d k.
Proof.
  unfold dict_update. revert d. induction l as [|x l IH]; intros d; csimpl.
  - done.
  - rewrite IH. destruct (decide (k ∈ l)) as [Hin|Hnin].
    + by rewrite decide_True by (by right).
    + rewrite dict_get_set. destruct (decide (x = k)) as [->|Hne].
      * by rewrite decide_True by left.
      * rewrite decide_False; [done|]. intros [->|?]%elem_of_cons; done.
Qed.

(** X4.  The activation set after a call of [add_pkg] that passes the
    test of its multi-process arguments: when a non-empty
    [components_to_activate_on_start] is given, its components, and only
    they, are marked with the multi-processing flag of the call, and
    [activate_all_components_on_start] is not looked at; otherwise the
    components of the call are marked if that flag is set.  Components
    marked by earlier calls keep their mark.  A call that does not pass the
    test raises before it marks anything: the activation set stays as it
    was. *)
Theorem add_pkg_activation comps pkg exe ea mp act cta self :
  (process_arguments_given mp pkg exe →
   ∀ c,
     dict_get (__components_to_activate_on_start
                 (add_pkg comps pkg exe ea mp act cta self).1) c
       = if decide (c ∈ chosen_for_activation comps act cta) then Some mp
         else dict_get (__components_to_activate_on_start self) c)
  ∧ (¬ process_arguments_given mp pkg exe →
     __components_to_activate_on_start (add_pkg comps pkg exe ea mp act cta self).1
       = __components_to_activate_on_start self).
Proof.
  split.
  - intros Hargs c.
    destruct (add_pkg_steps_components comps pkg exe ea mp act cta self Hargs)
      as (self' & out & -> & _ & _ & Ha).
    simpl. rewrite Ha. apply dict_update_get.
  - intros Hnot. by destruct (add_pkg_refused comps pkg exe ea mp act cta self Hnot)
      as [msg ->].
Qed.

Lemma add_pkg_activation_witness :
  (∀ c,
     dict_get (__components_to_activate_on_start
                 (add_pkg [component_A; component_B] None (Some "executable") None false
                    true (Some [component_B]) (init "" None true)).1) c
       = if decide (c ∈ chosen_for_activation [component_A; component_B] true
                          (Some [component_B]))
         then Some false
         else dict_get (__components_to_activate_on_start (init "" None true)) c)
  ∧ __components_to_activate_on_start
      (add_pkg [component_A; component_B] None (Some "executable") None true true
         (Some [component_B]) (init "" None true)).1
    = __components_to_activate_on_start (init "" None true).
Proof.
  split.
  - apply (add_pkg_activation [component_A; component_B] None (Some "executable") None
             false true (Some [component_B]) (init "" None true)).
    intros Hmp. discriminate Hmp.
  - apply (add_pkg_activation [component_A; component_B] None (Some "executable") None
             true true (Some [component_B]) (init "" None true)).
    intros Hargs. by destruct (Hargs eq_refl).
Defined.


(** ** Invariants of registration *)

Lemma update_dict_list_NoDup {K V : Type} `{EqDecision K} (d : list (K * list V)) k v :
  NoDup (dict_keys d) → NoDup (dict_keys (__update_dict_list d k v)).
Proof.
  intros Hnd. rewrite update_dict_list_keys. case_decide as Hin; [done|].
  apply NoDup_app. repeat split; [done | | apply NoDup_singleton].
  intros x Hx ->%list_elem_of_singleton. done.
Qed.

Lemma rewrite_action_NoDup comps e a self :
  NoDup (dict_keys (_ros_actions self))
  ∧ NoDup (dict_keys (_components_actions self))
  ∧ NoDup (dict_keys (_monitor_actions self)) →
  NoDup (dict_keys (_ros_actions (rewrite_action comps e a self).1))
  ∧ NoDup (dict_keys (_components_actions (rewrite_action comps e a self).1))
  ∧ NoDup (dict_keys (_monitor_actions (rewrite_action comps e a self).1)).
Proof.
  intros (Hr & Hc & Hm). unfold rewrite_action. destruct a as [r|a]; simpl.
  - repeat split; try done. by apply update_dict_list_NoDup.
  - destruct (component_action a).
    + case_bool_decide; simpl; repeat split; try done. by apply update_dict_list_NoDup.
    + destruct (monitor_action a); simpl; repeat split; try done.
      by apply update_dict_list_NoDup.
Qed.

Lemma add_pkg_registries_NoDup comps pkg exe ea mp act cta self :
  NoDup (dict_keys (_ros_actions self))
  ∧ NoDup (dict_keys (_components_actions self))
  ∧ NoDup (dict_keys (_monitor_actions self)) →
  let self' := (add_pkg comps pkg exe ea mp act cta self).1 in
  NoDup (dict_keys (_ros_actions self'))
  ∧ NoDup (dict_keys (_components_actions self'))
  ∧ NoDup (dict_keys (_monitor_actions self')).
Proof.
  intros Hself.
  destruct (mp && (negb (truthy_str pkg) || negb (truthy_str exe))) eqn:Hcheck.
  { unfold add_pkg. by rewrite Hcheck. }
  destruct (add_pkg_steps comps pkg exe ea mp act cta self Hcheck)
    as (self2 & (Hr & Hc & Hm) & _ & ->).
  set (P := λ s : Launcher,
         NoDup (dict_keys (_ros_actions s))
         ∧ NoDup (dict_keys (_components_actions s))
         ∧ NoDup (dict_keys (_monitor_actions s))).
  assert (P self2) as Hself2 by (unfold P; by rewrite Hr, Hc, Hm).
  set (reg := if truthy_opt_list ea && __enable_monitoring self then _ else _).
  assert (P (reg self2).1) as Hreg.
  { subst reg. destruct (truthy_opt_list ea && __enable_monitoring self); [|done].
    unfold __rewrite_actions_for_components.
    apply (for_each_invariant P); [|done]. intros item s Hs.
    apply (for_each_invariant P); [|done]. intros a s'. apply rewrite_action_NoDup. }
  destruct (reg self2) as [self3 [[]|err]]; [|done].
  destruct (configure_loop_heap comps self3) as [h ->]. done.
Qed.

Lemma init_consistent namespace config_file enable_monitoring :
  consistent (init namespace config_file enable_monitoring).
Proof.
  intros. repeat split; try apply NoDup_nil_2. apply init_ros_only.
Qed.

Lemma add_pkg_consistent comps pkg exe ea mp act cta self :
  consistent self → consistent (add_pkg comps pkg exe ea mp act cta self).1.
Proof.
  intros (Hlen & Hros & Hnd).
  split; [|split; [by apply add_pkg_ros_only | by apply add_pkg_registries_NoDup]].
  destruct (mp && (negb (truthy_str pkg) || negb (truthy_str exe))) eqn:Hcheck.
  { unfold add_pkg. by rewrite Hcheck. }
  assert (process_arguments_given mp pkg exe) as Hargs.
  { intros ->. simpl in Hcheck. apply orb_false_elim in Hcheck as [H1 H2].
    by rewrite negb_false_iff in H1, H2. }
  destruct (add_pkg_steps_components comps pkg exe ea mp act cta self Hargs)
    as (self' & out & -> & Hc & Hp & _).
  simpl. rewrite Hc, Hp, !length_app, length_replicate.
  destruct (components self); simpl in *; lia.
Qed.

(** X5.  Every launcher made by [init] and calls of [add_pkg] is
    consistent, whatever the arguments and whether or not a call raises:
    there is one package pair per component, [_ros_actions] holds ROS
    launch actions only, and no registry has a key twice.  Each call is
    given a list of its own (the launcher keeps the list object of its
    first call; passing that very object again is not described here). *)
Theorem launcher_stays_consistent :
  (∀ namespace config_file enable_monitoring,
     consistent (init namespace config_file enable_monitoring))
  ∧ (∀ comps pkg exe ea mp act cta self,
       consistent self → consistent (add_pkg comps pkg exe ea mp act cta self).1).
Proof.
  split.
  - apply init_consistent.
  - apply add_pkg_consistent.
Qed.

Lemma launcher_stays_consistent_witness :
  consistent launcher_two_duplicates
  ∧ consistent (add_pkg [component_B] None (Some "executable") (Some events_for_A) false
                  true None launcher_two_duplicates).1.
Proof.
  destruct launcher_stays_consistent as [Hinit Hadd]. split.
  - apply Hadd, Hinit.
  - apply Hadd, Hadd, Hinit.
Defined.

(** ** Events of a component *)

Lemma update_dict_list_nonempty {K V : Type} `{EqDecision K} (d : list (K * list V)) k v :
  Forall (λ item, item.2 ≠ []) d →
  Forall (λ item, item.2 ≠ []) (__update_dict_list d k v).
Proof.
  intros Hd. unfold __update_dict_list.
  destruct (dict_get d k) as [[|x l]|]; by apply dict_set_Forall.
Qed.

Section component_events.
Context (comp : BaseComponent).

Lemma take_actions_get (l : list Action) key d e :
  default [] (dict_get (foldl (take_action comp key) d l) e)
    = default [] (dict_get d e)
        ++ (if decide (key = e)
            then filter (λ action, node_name comp = parent_component action) l
            else []).
Proof.
  revert d. induction l as [|a l IH]; intros d; simpl.
  - destruct (decide (key = e)); by rewrite app_nil_r.
  - rewrite IH. unfold take_action. rewrite filter_cons.
    destruct (decide (node_name comp = parent_component a)).
    + rewrite update_dict_list_default.
      destruct (decide (key = e)); by rewrite <- (assoc_L (++)).
    + done.
Qed.

Lemma take_actions_nonempty (l : list Action) key d :
  Forall (λ item, item.2 ≠ []) d →
  Forall (λ item, item.2 ≠ []) (foldl (take_action comp key) d l).
Proof.
  revert d. induction l as [|a l IH]; intros d Hd; simpl; [done|].
  apply IH. unfold take_action. case_decide; [by apply update_dict_list_nonempty | done].
Qed.

Lemma take_items_get (items : list (Event * list Action)) d e :
  NoDup (dict_keys items) →
  default [] (dict_get
                (foldl (λ d item, foldl (take_action comp item.1) d (item.2 : list Action))
                       d items) e)
    = default [] (dict_get d e)
        ++ filter (λ action, node_name comp = parent_component action)
                  (default [] (dict_get items e)).
Proof.
  unfold dict_keys. revert d. induction items as [|[k l] items IH]; intros d Hnd; csimpl.
  - by rewrite app_nil_r.
  - apply NoDup_cons in Hnd as [Hk Hnd]. rewrite IH by done.
    rewrite take_actions_get. rewrite <- (assoc_L (++)). f_equal.
    destruct (decide (k = e)) as [->|Hne]; [|done].
    assert (dict_get items e = None) as -> by (by apply dict_get_None).
    simpl. by rewrite filter_nil, app_nil_r.
Qed.

Lemma take_items_nonempty (items : list (Event * list Action)) d :
  Forall (λ item, item.2 ≠ []) d →
  Forall (λ item, item.2 ≠ [])
    (foldl (λ d item, foldl (take_action comp item.1) d (item.2 : list Action)) d items).
Proof.
  revert d. induction items as [|[k l] items IH]; intros d Hd; simpl; [done|].
  by apply IH, take_actions_nonempty.
Qed.

End component_events.

(** X6.  [_setup_component_events_handlers] never raises.  It gives the
    component, for every event, the actions of [_components_actions] that
    declare the node name of the component, in their order, and touches no
    other component; when no action declares that name the launcher is
    left as it was. *)
Theorem setup_component_events_handlers_by_name (comp : BaseComponent) (self : Launcher) :
  NoDup (dict_keys (_components_actions self)) →
  ∃ self',
    _setup_component_events_handlers comp self = (self', Return tt)
    ∧ (∀ c, c ≠ comp → component_state self' c = component_state self c)
    ∧ (((∀ e, actions_of_component comp self e = []) ∧ self' = self)
       ∨ ((∃ e, actions_of_component comp self e ≠ [])
          ∧ ∃ d, comp_events_actions (component_state self' comp) = Some d
                 ∧ ∀ e, default [] (dict_get d e) = actions_of_component comp self e)).
Proof.
  intros Hnd. unfold _setup_component_events_handlers, actions_of_component.
  rewrite M_bind_unfold. unfold read at 1.
  destruct (truthy_list (_components_actions self)) eqn:Htruthy; simpl negb; cbv iota.
  2: { exists self. repeat split; try done. left. split; [|done]. intros e.
       by destruct (_components_actions self). }
  set (comp_dict := foldl _ [] (_components_actions self)).
  assert (∀ e, default [] (dict_get comp_dict e)
               = filter (λ action, node_name comp = parent_component action)
                        (default [] (dict_get (_components_actions self) e))) as Hget.
  { intros e. subst comp_dict.
    exact (take_items_get comp (_components_actions self) [] e Hnd). }
  assert (Forall (λ item, item.2 ≠ []) comp_dict) as Hne.
  { subst comp_dict.
    exact (take_items_nonempty comp (_components_actions self) [] (Forall_nil_2 _)). }
  destruct comp_dict as [|[k l] rest] eqn:Hd.
  - exists self. repeat split; try done. left. split; [|done].
    intros e. by rewrite <- Hget.
  - simpl truthy_list. cbv iota. eexists. split; [reflexivity|]. split.
    + intros c Hc. unfold component_state. simpl. by rewrite dict_get_set_ne.
    + right. split.
      * exists k. rewrite <- Hget. simpl. rewrite decide_True by done. simpl.
        by apply Forall_cons_1 in Hne as [? _].
      * eexists. split; [|exact Hget].
        unfold component_state. simpl. by rewrite dict_get_set_eq.
Qed.

Lemma setup_component_events_handlers_by_name_witness :
  ∃ self',
    _setup_component_events_handlers component_A launcher_ready = (self', Return tt)
    ∧ (∀ c, c ≠ component_A →
         component_state self' c = component_state launcher_ready c)
    ∧ (((∀ e, actions_of_component component_A launcher_ready e = [])
        ∧ self' = launcher_ready)
       ∨ ((∃ e, actions_of_component component_A launcher_ready e ≠ [])
          ∧ ∃ d, comp_events_actions (component_state self' component_A) = Some d
                 ∧ ∀ e, default [] (dict_get d e)
                        = actions_of_component component_A launcher_ready e)).
Proof.
  apply (setup_component_events_handlers_by_name component_A launcher_ready).
  refine (bool_decide_unpack _ _). vm_compute. exact I.
Defined.


(** ** Dispatch of component actions, continued *)

Lemma component_loop_match comp (l : list BaseComponent) parent i c :
  list_find (λ c, node_name c = parent) l = Some (i, c) →
  component_loop comp l parent = Some c.
Proof.
  revert comp i. induction l as [|x l IH]; intros comp i; csimpl; [done|].
  destruct (decide (node_name x = parent)); [by intros [= _ ->]|].
  destruct (list_find _ l) as [[j c']|] eqn:Hfind; [|done].
  intros [= _ ->]. by eapply IH.
Qed.

Lemma getattr_launcher_handler (self : Launcher) (h : ActionHandler) :
  getattr_launcher self (handler_name h) = Some (HandlerMethod h).
Proof. by destruct h. Qed.


(** X8.  The dispatch of a handler for a component the launcher has: the
    call goes to the first component of the list with the declared name,
    and what is returned is one lifecycle transition for that name with
    the transitions of the handler.  The action must carry no positional
    argument and no keyword [node_name] or [component]. *)
Theorem get_action_launch_entity_known_component (self : Launcher) (action : Action)
    (h : ActionHandler) (i : nat) (c : BaseComponent) :
  action_name action = handler_name h →
  list_find (λ c, node_name c = parent_component action) (components self) = Some (i, c) →
  args action = [] →
  "node_name" ∉ (kwargs action).*1 → "component" ∉ (kwargs action).*1 →
  _get_action_launch_entity_call self action
    = Return {| call_method := h; call_args := []; call_kwargs := kwargs action;
                call_node_name := parent_component action; call_component := c |}
  ∧ _get_action_launch_entity self action
    = Return [LifecycleTransition [parent_component action] (handler_transitions h)].
Proof.
  intros Hname Hfind Hargs Hnode Hcomp.
  assert (_get_action_launch_entity_call self action
          = Return {| call_method := h; call_args := []; call_kwargs := kwargs action;
                      call_node_name := parent_component action; call_component := c |})
    as Hcall.
  { unfold _get_action_launch_entity_call.
    rewrite Hname, getattr_launcher_handler. simpl.
    by rewrite (component_loop_match _ _ _ _ _ Hfind), Hargs. }
  split; [done|]. unfold _get_action_launch_entity. rewrite Hcall. unfold invoke. simpl.
  rewrite bool_decide_eq_false_2 by (by intros [|]). by destruct h.
Qed.

Lemma get_action_launch_entity_known_component_witness :
  _get_action_launch_entity launcher_two_components
    (component_action_for component_A "restart")
  = Return [LifecycleTransition ["A"]
              [Transition.TRANSITION_DEACTIVATE; Transition.TRANSITION_ACTIVATE]].
Proof.
  apply (get_action_launch_entity_known_component launcher_two_components
           (component_action_for component_A "restart") Restart 0 component_A).
  - reflexivity.
  - reflexivity.
  - reflexivity.
  - apply not_elem_of_nil.
  - apply not_elem_of_nil.
Defined.

(** X9.  On a launcher without components the dispatch of a handler
    raises [InvalidAction], and the message names the component the
    action declares. *)
Theorem get_action_launch_entity_no_components (self : Launcher) (action : Action)
    (h : ActionHandler) :
  action_name action = handler_name h →
  components self = [] →
  ∃ msg, _get_action_launch_entity self action = Raise (InvalidAction msg)
         ∧ mentions (parent_component action) msg.
Proof.
  intros Hname Hnil. unfold _get_action_launch_entity, _get_action_launch_entity_call.
  rewrite Hname, getattr_launcher_handler, Hnil. simpl.
  eexists. split; [reflexivity|]. left. set_solver.
Qed.

Lemma get_action_launch_entity_no_components_witness :
  ∃ msg, _get_action_launch_entity (init "" None true)
           (component_action_for component_A "stop") = Raise (InvalidAction msg)
         ∧ mentions "A" msg.
Proof.
  apply (get_action_launch_entity_no_components (init "" None true)
           (component_action_for component_A "stop") Stop); reflexivity.
Defined.

(** ** Setup of the monitor, when the names are unique *)

Lemma set_internal_events_id self :
  set_internal_event_names (_internal_event_names self)
    (set_internal_events (_internal_events self) self) = self.
Proof. by destruct self. Qed.

Lemma setup_monitor_node_success nodes_in_processes self :
  NoDup (node_name <$> components self) →
  NoDup (name <$> dict_keys (_ros_actions self)) →
  ros_only self →
  ∃ events event_names,
    _setup_monitor_node nodes_in_processes self
      = (set_description (_description self ++ monitor_entities self)
           (set_monitor_node (Some (monitor_of self))
              (set_internal_event_names event_names (set_internal_events events self))),
         Return tt)
    ∧ events = (if _ros_actions self is [] then _internal_events self
                else Some (dict_keys (_ros_actions self))).
Proof.
  intros Hcomps Hevents Hros. unfold _setup_monitor_node.
  rewrite M_bind_unfold. unfold read at 1. rewrite M_bind_unfold.
  set (check := if truthy_list (_ros_actions self) then _ else _).
  assert (∃ events event_names,
            check self = (set_internal_event_names event_names
                            (set_internal_events events self), Return tt)
            ∧ events = (if _ros_actions self is [] then _internal_events self
                        else Some (dict_keys (_ros_actions self))))
    as (events & event_names & -> & Hev).
  { subst check. destruct (_ros_actions self) as [|item ros] eqn:Hra.
    - exists (_internal_events self), (_internal_event_names self).
      by rewrite set_internal_events_id.
    - simpl truthy_list. cbv iota. run_M.
      rewrite len_set_decide, bool_decide_eq_true_2 by done. by eexists _, _. }
  exists events, event_names. split; [|done].
  set (s1 := set_internal_event_names event_names (set_internal_events events self)).
  rewrite M_bind_unfold. unfold read at 1. rewrite M_bind_unfold.
  change (components s1) with (components self).
  rewrite len_set_decide, bool_decide_eq_true_2 by done.
  change (negb true) with false. cbv iota.
  change (pass s1) with (s1, @Return unit tt). cbv beta iota.
  rewrite M_bind_unfold. unfold assign at 1. rewrite M_bind_unfold. unfold assign at 1.
  rewrite M_bind_unfold. unfold assign at 1.
  rewrite setup_internal_events_handlers_ros by done.
  subst s1. simpl. unfold monitor_entities, monitor_of. rewrite Hev.
  by rewrite <- !(assoc_L (++)).
Qed.

(** X10.  With unique component names and unique internal event names,
    [_setup_monitor_node] returns normally: the supervisor it builds is
    told the node name of every component, in order, and the internal
    events it is to emit are the events of [_ros_actions], for each of
    which, and in the same order, a handler follows the monitor and the
    activation handler in the launch description. *)
Theorem setup_monitor_node_unique_names (nodes_in_processes : bool) (self : Launcher) :
  NoDup (node_name <$> components self) →
  NoDup (name <$> dict_keys (_ros_actions self)) →
  ros_only self →
  ∃ self' m,
    _setup_monitor_node nodes_in_processes self = (self', Return tt)
    ∧ monitor_node self' = Some m
    ∧ components_names m = node_name <$> components self
    ∧ events_actions m = _monitor_actions self
    ∧ (_ros_actions self ≠ [] → events_to_emit m = Some (dict_keys (_ros_actions self)))
    ∧ _description self'
      = _description self
          ++ [ComponentLaunchAction (MonitorNode m) (_namespace self) monitor_node_name
                None;
              RegisterEventHandler "activate_all" (_activate_components_action self)]
          ++ (internal_event_handler <$> _ros_actions self).
Proof.
  intros Hcomps Hevents Hros.
  destruct (setup_monitor_node_success nodes_in_processes self Hcomps Hevents Hros)
    as (events & event_names & -> & _).
  eexists _, (monitor_of self). repeat split.
  intros Hne. simpl. by destruct (_ros_actions self).
Qed.

Lemma setup_monitor_node_unique_names_witness :
  ∃ self' m,
    _setup_monitor_node true launcher_ready = (self', Return tt)
    ∧ monitor_node self' = Some m
    ∧ components_names m = node_name <$> components launcher_ready
    ∧ events_actions m = _monitor_actions launcher_ready
    ∧ (_ros_actions launcher_ready ≠ [] →
       events_to_emit m = Some (dict_keys (_ros_actions launcher_ready)))
    ∧ _description self'
      = _description launcher_ready
          ++ [ComponentLaunchAction (MonitorNode m) (_namespace launcher_ready)
                monitor_node_name None;
              RegisterEventHandler "activate_all"
                (_activate_components_action launcher_ready)]
          ++ (internal_event_handler <$> _ros_actions launcher_ready).
Proof.
  apply (setup_monitor_node_unique_names true launcher_ready).
  - refine (bool_decide_unpack _ _). vm_compute. exact I.
  - refine (bool_decide_unpack _ _). vm_compute. exact I.
  - repeat constructor.
Defined.

(** ** [bringup], when it goes through *)

Lemma set_thread_pool_id self : set_thread_pool (thread_pool self) self = self.
Proof. by destruct self. Qed.

Lemma for_each_pool {A : Type} (l : list A) (body : A → M unit) :
  (∀ x self, ∃ p, body x self = (set_thread_pool p self, Return tt)) →
  ∀ self, ∃ p, for_each l body self = (set_thread_pool p self, Return tt).
Proof.
  intros Hbody. induction l as [|x l IH]; intros self.
  - exists (thread_pool self). by rewrite set_thread_pool_id.
  - rewrite for_each_cons. destruct (Hbody x self) as [p ->].
    destruct (IH (set_thread_pool p self)) as [p' ->]. by exists p'.
Qed.

Lemma setup_external_processors_pool msgpack_installed component self :
  msgpack_installed = true ∨ _external_processors component = [] →
  ∃ p, _setup_external_processors msgpack_installed component self
       = (set_thread_pool p self, Return tt).
Proof.
  intros Hpack. unfold _setup_external_processors.
  destruct (truthy_list (_external_processors component)) eqn:Htruthy.
  2: { exists (thread_pool self). by rewrite set_thread_pool_id. }
  destruct Hpack as [->|Hnil]; [|by rewrite Hnil in Htruthy].
  change (negb true) with false. cbv iota.
  rewrite M_bind_unfold. unfold assign at 1. rewrite M_bind_unfold.
  set (s1 := if thread_pool self is Some _ then self else set_thread_pool (Some []) self).
  assert (∃ p, s1 = set_thread_pool p self) as [p ->].
  { subst s1. destruct (thread_pool self) eqn:Hp; [|by eexists].
    exists (thread_pool self). by rewrite set_thread_pool_id. }
  change (pass (set_thread_pool p self)) with (set_thread_pool p self, @Return unit tt).
  cbv beta iota.
  match goal with
  | |- ∃ _, for_each ?l ?body ?s = _ =>
      destruct (for_each_pool l body) with (self := s) as [p' ->]
  end.
  - intros item s. apply for_each_pool. intros processor_name s'. by eexists.
  - by exists p'.
Qed.

Lemma setup_component_events_handlers_heap comp self :
  ∃ h, _setup_component_events_handlers comp self = (set_heap h self, Return tt).
Proof.
  unfold _setup_component_events_handlers. rewrite M_bind_unfold. unfold read at 1.
  destruct (truthy_list (_components_actions self)).
  2: { exists (heap self). by rewrite set_heap_id. }
  change (negb true) with false. cbv iota.
  match goal with
  | |- context [truthy_list ?d] => destruct (truthy_list d)
  end.
  - by eexists.
  - exists (heap self). by rewrite set_heap_id.
Qed.

(** The loop of [bringup] over the components: one launch action each,
    in order; the thread pool is the only other thing that changes. *)
Lemma launch_loop msgpack_installed level severity (comps : list BaseComponent) :
  get_logging_severity_from_string level = Return severity →
  msgpack_installed = true ∨ Forall (λ c, _external_processors c = []) comps →
  ∀ k self,
    (k + length comps ≤ length (_pkg_executable self))%nat →
    ∃ p,
      for_each (imap (λ idx component, ((k + idx)%nat, component)) comps) (λ item,
        pkg_executable ← read _pkg_executable ;
        match pkg_executable !! item.1 with
        | Some (pkg_name, executable_name) =>
            if truthy_str pkg_name && truthy_str executable_name then
              _setup_component_in_process msgpack_installed item.2 (default "" pkg_name)
                (default "" executable_name) level
            else _setup_component_in_thread item.2 level
        | None => raise (IndexError [Lit "list index out of range"])
        end) self
      = (set_thread_pool p
           (set_launch_group
              (_launch_group self
                 ++ zip_with (launch_entity (_namespace self) level severity) comps
                      (drop k (_pkg_executable self)))
              self),
         Return tt).
Proof.
  intros Hsev Hpack. induction comps as [|c comps IH]; intros k self Hlen.
  - exists (thread_pool self). simpl. rewrite app_nil_r.
    by destruct self.
  - simpl in Hlen. rewrite imap_cons, for_each_cons.
    destruct (lookup_lt_is_Some_2 (_pkg_executable self) k) as [[p1 p2] Hpair]; [lia|].
    rewrite M_bind_unfold. unfold read at 1. cbn [fst snd]. rewrite Nat.add_0_r, Hpair.
    rewrite (drop_S _ _ _ Hpair). simpl zip_with.
    assert (∃ p, (if truthy_str p1 && truthy_str p2
                  then _setup_component_in_process msgpack_installed c (default "" p1)
                         (default "" p2) level
                  else _setup_component_in_thread c level) self
                 = (set_thread_pool p
                      (set_launch_group
                         (_launch_group self
                            ++ [launch_entity (_namespace self) level severity c (p1, p2)])
                         self),
                    Return tt)) as [p ->].
    { unfold launch_entity. simpl. destruct (truthy_str p1 && truthy_str p2).
      - unfold _setup_component_in_process. rewrite M_bind_unfold.
        destruct (setup_external_processors_pool msgpack_installed c self) as [p ->].
        { destruct Hpack as [->|Hall]; [by left|]. right. by apply Forall_cons_1 in Hall as [? _]. }
        exists p. unfold assign. simpl. by destruct (managed_entity c).
      - exists (thread_pool self). unfold _setup_component_in_thread.
        rewrite M_bind_unfold. unfold lift. rewrite Hsev. unfold assign.
        by destruct self. }
    rewrite (imap_ext _ (λ idx component, ((S k + idx)%nat, component)))
      by (intros i x _; simpl; f_equal; lia).
    destruct IH with (k := S k)
                     (self := set_thread_pool p
                                (set_launch_group
                                   (_launch_group self
                                      ++ [launch_entity (_namespace self) level severity c
                                            (p1, p2)])
                                   self)) as [p' ->].
    { destruct Hpack as [->|Hall]; [by left|]. right. by apply Forall_cons_1 in Hall as [_ ?]. }
    { simpl. lia. }
    exists p'. simpl. by rewrite <- (assoc_L (++)).
Qed.

(** X11.  [bringup] goes through when the launcher has components, their
    node names are unique, the names of the internal events are unique,
    the launcher is consistent, the log level names a severity of the ROS
    logging library, and the serialization library is installed or no
    component has external processors.  The launch group then gets one
    launch action per component, in the order of registration: a node in
    its own process for a component registered with a package and an entry
    point, and a node in a thread of the launcher, with the severity of
    the log level, otherwise.  The launch description keeps what it held,
    followed by the monitor, the handlers and the group, and the launch
    service runs that description. *)
Theorem bringup_launches_every_component (msgpack_installed : bool)
    (config_file : option string) (introspect launch_debug : bool) (level : string)
    (severity : Z) (self : Launcher) :
  components self ≠ [] →
  NoDup (node_name <$> components self) →
  NoDup (name <$> dict_keys (_ros_actions self)) →
  consistent self →
  get_logging_severity_from_string level = Return severity →
  msgpack_installed = true
  ∨ Forall (λ c, _external_processors c = []) (components self) →
  ∃ self',
    bringup msgpack_installed config_file introspect launch_debug level self
      = (self', Return tt)
    ∧ _launch_group self'
      = _launch_group self
          ++ zip_with (launch_entity (_namespace self) level severity) (components self)
               (_pkg_executable self)
    ∧ _description self'
      = _description self ++ monitor_entities self ++ [GroupAction (_launch_group self')]
    ∧ ls self' = Some {| debug := launch_debug; launch_description := _description self' |}
    ∧ components self' = components self.
Proof.
  intros Hne Hcomps Hevents (Hlen & Hros & _) Hsev Hpack. unfold bringup.
  rewrite M_bind_unfold. unfold read at 1. rewrite M_bind_unfold.
  assert (truthy_list (components self) = true) as -> by (by destruct (components self)).
  change (negb true) with false. cbv iota.
  change (pass self) with (self, @Return unit tt). cbv beta iota.
  rewrite M_bind_unfold.
  assert (∃ h, (if truthy_str config_file
                then configure (default "" config_file) None else pass) self
               = (set_heap h self, Return tt)) as [h ->].
  { destruct (truthy_str config_file); [apply configure_heap|].
    exists (heap self). by rewrite set_heap_id. }
  rewrite M_bind_unfold.
  destruct (setup_monitor_node_success true (set_heap h self) Hcomps Hevents Hros)
    as (events & event_names & -> & _).
  set (s2 := set_description _ _).
  rewrite M_bind_unfold. unfold read at 1. rewrite M_bind_unfold.
  destruct (for_each_heap (components s2) _setup_component_events_handlers
              setup_component_events_handlers_heap s2) as [h' ->].
  rewrite M_bind_unfold.
  destruct (launch_loop msgpack_installed level severity (components s2) Hsev Hpack 0
              (set_heap h' s2)) as [p Hloop].
  { simpl. lia. }
  change (imap (λ idx component, (idx, component)) (components s2))
    with (imap (λ idx component, ((0 + idx)%nat, component)) (components s2)).
  rewrite Hloop. rewrite M_bind_unfold. unfold assign at 1. unfold _start_ros_launch, assign.
  eexists. split; [reflexivity|]. simpl. rewrite drop_0.
  repeat split. by rewrite <- (assoc_L (++)).
Qed.

Lemma bringup_launches_every_component_witness :
  ∃ self',
    bringup false None false false "info" launcher_ready = (self', Return tt)
    ∧ _launch_group self'
      = _launch_group launcher_ready
          ++ zip_with (launch_entity (_namespace launcher_ready) "info" 20)
               (components launcher_ready) (_pkg_executable launcher_ready)
    ∧ _description self'
      = _description launcher_ready ++ monitor_entities launcher_ready
          ++ [GroupAction (_launch_group self')]
    ∧ ls self' = Some {| debug := false; launch_description := _description self' |}
    ∧ components self' = components launcher_ready.
Proof.
  apply (bringup_launches_every_component false None false false "info" 20 launcher_ready).
  - discriminate.
  - refine (bool_decide_unpack _ _). vm_compute. exact I.
  - refine (bool_decide_unpack _ _). vm_compute. exact I.
  - apply add_pkg_consistent, init_consistent.
  - reflexivity.
  - right. repeat constructor.
Defined.

(** X12.  [bringup] on a launcher without components raises [ValueError]
    at once and leaves the launcher as it was. *)
Theorem bringup_without_components (msgpack_installed : bool)
    (config_file : option string) (introspect launch_debug : bool) (level : string)
    (self : Launcher) :
  components self = [] →
  ∃ msg,
    bringup msgpack_installed config_file introspect launch_debug level self
      = (self, Raise (ValueError msg)).
Proof. intros Hnil. eexists. by apply bringup_no_components. Qed.

Lemma bringup_without_components_witness :
  ∃ msg, bringup true (Some "config.yaml") true true "debug" (init "ns" None true)
         = (init "ns" None true, Raise (ValueError msg)).
Proof.
  apply (bringup_without_components true (Some "config.yaml") true true "debug"
           (init "ns" None true)).
  reflexivity.
Defined.


(** ** Loops that update components *)

(** A loop that updates some of its components changes the heap only:
    the components it does not update keep their state, and a component
    it updates ends in a state that the update produces. *)
Lemma update_loop (I : Launcher → Prop) (P : BaseComponent → Prop)
    `{∀ c, Decision (P c)} (f : BaseComponent → ComponentState → ComponentState)
    (Q : BaseComponent → ComponentState → Prop) (body : BaseComponent → M unit)
    (l : list BaseComponent) :
  (∀ h s, I s → I (set_heap h s)) →
  (∀ c s, c ∈ l → I s →
     body c s = if decide (P c) then update_component c (f c) s else (s, Return tt)) →
  (∀ c st, Q c (f c st)) →
  ∀ s, I s →
    ∃ h, for_each l body s = (set_heap h s, Return tt)
         ∧ (∀ c, c ∉ l ∨ ¬ P c → dict_get h c = dict_get (heap s) c)
         ∧ (∀ c, c ∈ l → P c → Q c (default fresh_component (dict_get h c))).
Proof.
  intros HI Hbody HQ. induction l as [|x l IH]; intros s Hs.
  - exists (heap s). rewrite set_heap_id. split; [done|]. split; [done|].
    intros c Hc. by apply elem_of_nil in Hc.
  - rewrite for_each_cons. rewrite Hbody by (done || left).
    destruct IH with (s := if decide (P x)
                           then set_heap (dict_set (heap s) x
                                            (f x (component_state s x))) s
                           else s) as (h & Hloop & Hother & Hupd).
    { intros c s' Hc. apply Hbody. by right. }
    { case_decide; [by apply HI | done]. }
    destruct (decide (P x)) as [HPx|HPx].
    + unfold update_component, assign. rewrite Hloop. exists h. split; [done|]. split.
      * intros c Hc. rewrite Hother.
        -- simpl. apply dict_get_set_ne. intros ->.
           destruct Hc as [Hc|Hc]; [apply Hc; left | done].
        -- destruct Hc as [Hc|Hc]; [left; intros ?; apply Hc; by right | by right].
      * intros c Hc HPc. destruct (decide (c ∈ l)) as [Hin|Hnin]; [by apply Hupd|].
        apply elem_of_cons in Hc as [->|]; [|done].
        rewrite Hother by (by left). simpl. rewrite dict_get_set_eq. apply HQ.
    + rewrite Hloop. exists h. split; [done|]. split.
      * intros c Hc. apply Hother.
        destruct Hc as [Hc|Hc]; [left; intros ?; apply Hc; by right | by right].
      * intros c Hc HPc. apply Hupd; [|done].
        apply elem_of_cons in Hc as [->|]; done.
Qed.

(** ** [configure] *)

(** X13.  [configure] with a component name configures the components
    of that name and no other, and raises nothing: a name that no
    component has leaves every component as it was.  Without a name, or
    with the empty string as name, every component is configured. *)
Theorem configure_by_name (config_file : string) (component_name : option string)
    (self : Launcher) :
  ∃ h,
    configure config_file component_name self = (set_heap h self, Return tt)
    ∧ (∀ c, c ∈ components self →
         component_name = None ∨ component_name = Some ""
         ∨ component_name = Some (node_name c) →
         config_file ∈ comp_configured (component_state (set_heap h self) c))
    ∧ (∀ c, truthy_str component_name = true →
         component_name ≠ Some (node_name c) →
         component_state (set_heap h self) c = component_state self c).
Proof.
  unfold configure. rewrite M_bind_unfold. unfold read at 1.
  destruct (truthy_str component_name) eqn:Htruthy.
  - destruct (update_loop (λ _, True)
                (λ c, Some (node_name c) = component_name)
                (λ _, configured_with config_file false)
                (λ _ st, config_file ∈ comp_configured st)
                (λ component,
                   if decide (Some (node_name component) = component_name)
                   then component_configure component config_file false else pass)
                (components self)) with (s := self) as (h & -> & Hother & Hupd).
    { done. }
    { intros c s _ _. by case_decide. }
    { intros c st. unfold configured_with. simpl. apply elem_of_app. right. left. }
    { done. }
    exists h. split; [done|]. split.
    + intros c Hc [-> | [-> | ->]]; try done. unfold component_state. simpl.
      by apply Hupd.
    + intros c _ Hne. unfold component_state. simpl. rewrite Hother; [done|].
      right. congruence.
  - destruct (update_loop (λ _, True) (λ _, True)
                (λ _, configured_with config_file false)
                (λ _ st, config_file ∈ comp_configured st)
                (λ component, component_configure component config_file false)
                (components self)) with (s := self) as (h & -> & Hother & Hupd).
    { done. }
    { intros c s _ _. by rewrite decide_True. }
    { intros c st. unfold configured_with. simpl. apply elem_of_app. right. left. }
    { done. }
    exists h. split; [done|]. split; [|done].
    intros c Hc _. unfold component_state. simpl. by apply Hupd.
Qed.

Lemma configure_by_name_witness :
  ∃ h,
    configure "params.yaml" (Some "A") launcher_two_components
      = (set_heap h launcher_two_components, Return tt)
    ∧ "params.yaml"
        ∈ comp_configured (component_state (set_heap h launcher_two_components) component_A)
    ∧ component_state (set_heap h launcher_two_components) component_B
      = component_state launcher_two_components component_B.
Proof.
  destruct (configure_by_name "params.yaml" (Some "A") launcher_two_components)
    as (h & Heq & Hin & Hout).
  exists h. split; [exact Heq|]. split.
  - apply Hin; [left | right; right; reflexivity].
  - apply Hout; [reflexivity | discriminate].
Defined.


(** ** External processors *)

Lemma submit_loop (component : BaseComponent) (pairs : list (string * string)) :
  ∀ self p0,
    thread_pool self = Some p0 →
    for_each pairs (λ p,
      assign (λ self0,
        set_thread_pool
          (Some (default [] (thread_pool self0)
                   ++ [{| sock_file :=
                            [Lit "/tmp/"; FStr (node_name component); Lit "_"; FStr p.1;
                             Lit "_"; FStr p.2; Lit ".socket"];
                          processor := p.2 |}]))
          self0)) self
    = (set_thread_pool
         (Some (p0 ++ ((λ p, {| sock_file :=
                                  [Lit "/tmp/"; FStr (node_name component); Lit "_";
                                   FStr p.1; Lit "_"; FStr p.2; Lit ".socket"];
                                processor := p.2 |}) <$> pairs)))
         self,
       Return tt).
Proof.
  induction pairs as [|p pairs IH]; intros self p0 Hp.
  - simpl. rewrite app_nil_r, <- Hp. by rewrite set_thread_pool_id.
  - rewrite for_each_cons. unfold assign at 1. rewrite Hp. simpl default.
    rewrite (IH _ (p0 ++ [_])) by done. simpl. by rewrite <- (assoc_L (++)).
Qed.

Lemma bridge_tasks_pairs (component : BaseComponent) :
  bridge_tasks component
    = (λ p : string * string,
         {| sock_file :=
              [Lit "/tmp/"; FStr (node_name component); Lit "_"; FStr p.1; Lit "_";
               FStr p.2; Lit ".socket"];
            processor := p.2 |})
        <$> (_external_processors component ≫= λ item, (λ b, (item.1, b)) <$> item.2).
Proof.
  unfold bridge_tasks. induction (_external_processors component) as [|[k l] rest IH].
  - done.
  - csimpl. rewrite fmap_app, IH. f_equal. rewrite <- list_fmap_compose. done.
Qed.

(** X14.  [_setup_external_processors] for a component without
    processors does nothing, whether or not the serialization library is
    there.  For a component with processors it makes the thread pool if
    there is none; then, without the library, it raises
    [ModuleNotFoundError] before a worker is submitted; with it, it submits
    one worker for every processor of every key, in order, behind the
    workers the pool holds. *)
Theorem setup_external_processors_workers (msgpack_installed : bool)
    (component : BaseComponent) (self : Launcher) :
  (_external_processors component = [] →
   _setup_external_processors msgpack_installed component self = (self, Return tt))
  ∧ (_external_processors component ≠ [] → msgpack_installed = false →
     ∃ msg,
       _setup_external_processors msgpack_installed component self
         = (set_thread_pool (Some (default [] (thread_pool self))) self,
            Raise (ModuleNotFoundError msg)))
  ∧ (_external_processors component ≠ [] → msgpack_installed = true →
     _setup_external_processors msgpack_installed component self
       = (set_thread_pool
            (Some (default [] (thread_pool self) ++ bridge_tasks component)) self,
          Return tt)).
Proof.
  unfold _setup_external_processors. split; [|split].
  - by intros ->.
  - intros Hne ->.
    assert (truthy_list (_external_processors component) = true) as ->
      by (by destruct (_external_processors component)).
    change (negb true) with false. cbv iota.
    rewrite M_bind_unfold. unfold assign at 1. rewrite M_bind_unfold.
    eexists. unfold raise. f_equal.
    destruct (thread_pool self) eqn:Hp; simpl; [|done].
    by rewrite <- Hp, set_thread_pool_id.
  - intros Hne ->.
    assert (truthy_list (_external_processors component) = true) as ->
      by (by destruct (_external_processors component)).
    change (negb true) with false. cbv iota.
    rewrite M_bind_unfold. unfold assign at 1. rewrite M_bind_unfold.
    set (s1 := if thread_pool self is Some _ then self else set_thread_pool (Some []) self).
    assert (s1 = set_thread_pool (Some (default [] (thread_pool self))) self) as ->.
    { subst s1. destruct (thread_pool self) eqn:Hp; simpl; [|done].
      by rewrite <- Hp, set_thread_pool_id. }
    change (pass ?s) with (s, @Return unit tt). cbv beta iota.
    rewrite (for_each_nested (_external_processors component) fst snd
               (λ key processor_name,
                  assign (λ self0,
                    set_thread_pool
                      (Some (default [] (thread_pool self0)
                               ++ [{| sock_file :=
                                        [Lit "/tmp/"; FStr (node_name component); Lit "_";
                                         FStr key; Lit "_"; FStr processor_name;
                                         Lit ".socket"];
                                      processor := processor_name |}]))
                      self0))).
    rewrite (submit_loop component _ _ (default [] (thread_pool self))) by done.
    by rewrite bridge_tasks_pairs.
Qed.

Lemma setup_external_processors_workers_witness :
  _setup_external_processors true component_A launcher_two_components
    = (launcher_two_components, Return tt)
  ∧ (∃ msg,
       _setup_external_processors false component_with_processors launcher_two_components
         = (set_thread_pool (Some []) launcher_two_components,
            Raise (ModuleNotFoundError msg)))
  ∧ _setup_external_processors true component_with_processors launcher_two_components
    = (set_thread_pool (Some (bridge_tasks component_with_processors))
         launcher_two_components,
       Return tt).
Proof.
  split; [|split].
  - apply (setup_external_processors_workers true component_A launcher_two_components).
    reflexivity.
  - apply (setup_external_processors_workers false component_with_processors
             launcher_two_components); [discriminate | reflexivity].
  - apply (setup_external_processors_workers true component_with_processors
             launcher_two_components); [discriminate | reflexivity].
Defined.

(** ** The worker of the bridge, continued *)

Lemma listen_iteration_empty func : listen_iteration func [] = Return None.
Proof. reflexivity. Qed.

(** X15.  An empty read does not end the worker and is not answered: the
    worker sends the same, and ends the same, as on the reads without the
    empty ones. *)
Theorem listen_skips_empty_reads (func : PyValue → Outcome PyValue)
    (received : list (list Z)) :
  __listen_for_external_processing func received
    = __listen_for_external_processing func (filter (λ data, data ≠ []) received).
Proof.
  induction received as [|data later IH]; [done|].
  rewrite filter_cons. destruct data as [|b data].
  - rewrite decide_False by (by intros ?). simpl. exact IH.
  - rewrite decide_True by done. simpl.
    destruct (listen_iteration func (b :: data)) as [[bytes_sent|]|e]; [|done|done].
    by rewrite IH.
Qed.

(** X16.  Errors are not caught in the worker: a read that cannot be
    unpacked, or on which the processing function raises, ends the worker
    with that exception; what was sent before stays sent, and the reads
    that follow are never answered. *)
Theorem listen_ends_at_first_error (func : PyValue → Outcome PyValue)
    (before after : list (list Z)) (data : list Z) (e : Exception) :
  data ≠ [] →
  unpackb data = Raise e ∨ (∃ v, unpackb data = Return v ∧ func v = Raise e) →
  (__listen_for_external_processing func before).2 = None →
  __listen_for_external_processing func (before ++ data :: after)
    = ((__listen_for_external_processing func before).1, Some e).
Proof.
  intros Hdata Herr.
  assert (listen_iteration func data = Raise e) as Hiter.
  { unfold listen_iteration. destruct data; [done|]. simpl.
    destruct Herr as [-> | (v & -> & ->)]; done. }
  induction before as [|d before IH]; simpl.
  - intros _. by rewrite Hiter.
  - destruct (listen_iteration func d) as [[bytes_sent|]|e']; [| |done].
    + destruct (__listen_for_external_processing func before) as [sent end_] eqn:Hb.
      simpl. intros ->. rewrite IH by done. done.
    + intros Hnone. by apply IH.
Qed.

Lemma listen_ends_at_first_error_witness :
  __listen_for_external_processing failing_processor ([[]] ++ [1%Z] :: [[2%Z]])
  = ([], Some (ValueError [Lit "bad input"])).
Proof.
  apply (listen_ends_at_first_error failing_processor [[]] [[2%Z]] [1%Z]
           (ValueError [Lit "bad input"])).
  - discriminate.
  - right. exists (VInt 1). split; reflexivity.
  - reflexivity.
Defined.


(** ** Fallbacks, continued *)

Lemma on_fail_component_installs fallback_name retries c self :
  ¬ refused fallback_name c →
  on_fail_component fallback_name retries c self
    = update_component c (with_fallback fallback_name retries c) self.
Proof.
  unfold refused, on_fail_component. intros Hok.
  destruct (decide (fallback_name ∈ fallbacks c)) as [Hin|Hnin]; [|destruct Hok; by left].
  rewrite bool_decide_eq_true_2 by done.
  destruct (fallbacks_getattr _ _ Hin) as [m Hget]. rewrite Hget.
  destruct (any_without_default (parameters m)) eqn:Hany.
  - destruct Hok. right. exists m. split; [done|]. by apply any_without_default_true.
  - unfold component_on_fail, update_component, assign, with_fallback. by rewrite Hget.
Qed.

(** X17.  When every component of the launcher has the fallback and its
    method needs no argument, [on_fail] returns normally and every
    component has the policy afterwards: the action made of its own method
    of that name and the retries of the call, in place of any policy it
    had; what else is known of the components stays. *)
Theorem on_fail_installs_everywhere (self : Launcher) (fallback_name : string)
    (retries : option Z) :
  (∀ c, c ∈ components self → ¬ refused fallback_name c) →
  ∃ h,
    on_fail fallback_name retries self = (set_heap h self, Return tt)
    ∧ (∀ c, c ∈ components self →
         ∃ m, getattr_component c fallback_name = Some m
              ∧ comp_on_fail (component_state (set_heap h self) c)
                = Some {| fallback_action := Action_of_method c m;
                          max_retries := retries |})
    ∧ (∀ c, c ∉ components self →
         component_state (set_heap h self) c = component_state self c).
Proof.
  intros Hok. unfold on_fail. rewrite M_bind_unfold. unfold read at 1.
  destruct (update_loop (λ _, True) (λ _, True)
              (with_fallback fallback_name retries)
              (λ c st, ¬ refused fallback_name c →
                       ∃ m, getattr_component c fallback_name = Some m
                            ∧ comp_on_fail st
                              = Some {| fallback_action := Action_of_method c m;
                                        max_retries := retries |})
              (on_fail_component fallback_name retries)
              (components self)) with (s := self) as (h & -> & Hother & Hupd).
  { done. }
  { intros c s Hc _. rewrite decide_True by done.
    by apply on_fail_component_installs, Hok. }
  { intros c st Hc. unfold with_fallback.
    destruct (getattr_component c fallback_name) as [m|] eqn:Hget; [by exists m|].
    destruct (decide (fallback_name ∈ fallbacks c)) as [Hin|Hnin].
    - destruct (fallbacks_getattr _ _ Hin) as [m Hm]. congruence.
    - destruct Hc. by left. }
  { done. }
  exists h. split; [done|]. split.
  - intros c Hc. unfold component_state. simpl. by apply Hupd; auto.
  - intros c Hc. unfold component_state. simpl. rewrite Hother; [done | by left].
Qed.

Lemma on_fail_installs_everywhere_witness :
  ∃ h,
    on_fail "restart" (Some 3%Z)
      (add_pkg_default [component_with_fallbacks 0 "A"] None (init "" None true))
    = (set_heap h
         (add_pkg_default [component_with_fallbacks 0 "A"] None (init "" None true)),
       Return tt).
Proof.
  destruct (on_fail_installs_everywhere
              (add_pkg_default [component_with_fallbacks 0 "A"] None (init "" None true))
              "restart" (Some 3%Z)) as (h & Heq & _).
  - intros c Hc. apply list_elem_of_singleton in Hc. subst c.
    intros [Hnot | (m & Hget & p & Hp & _)].
    + apply Hnot. left.
    + injection Hget as <-. by apply elem_of_nil in Hp.
  - by exists h.
Defined.

(** ** Configuration at registration *)

Lemma configure_loop_without_file (comps : list BaseComponent) self :
  truthy_str (_config_file self) = false →
  for_each comps (λ component,
    config_file ← read _config_file ;
    if truthy_str config_file
    then component_configure component (default "" config_file) true
    else pass) self
  = (self, Return tt).
Proof.
  intros Hfile. induction comps as [|c comps IH]; [done|].
  rewrite for_each_cons, M_bind_unfold. unfold read. by rewrite Hfile.
Qed.

(** The state in which [add_pkg] starts to configure its components. *)
Lemma add_pkg_before_configure comps pkg exe ea mp act cta self self' :
  add_pkg comps pkg exe ea mp act cta self = (self', Return tt) →
  ∃ self3,
    heap self3 = heap self ∧ _config_file self3 = _config_file self
    ∧ for_each comps (λ component,
        config_file ← read _config_file ;
        if truthy_str config_file
        then component_configure component (default "" config_file) true
        else pass) self3
      = (self', Return tt).
Proof.
  intros Hadd.
  destruct (mp && (negb (truthy_str pkg) || negb (truthy_str exe))) eqn:Hcheck.
  { unfold add_pkg in Hadd. by rewrite Hcheck in Hadd. }
  revert Hadd. unfold add_pkg. rewrite Hcheck.
  rewrite M_bind_unfold. simpl.
  rewrite M_bind_unfold. unfold assign at 1.
  set (self1 := if truthy_list (components self) then _ else _).
  assert (heap self1 = heap self ∧ _config_file self1 = _config_file self) as [Hh1 Hf1]
    by (subst self1; by destruct (truthy_list (components self))).
  rewrite M_bind_unfold.
  set (activation := if truthy_opt_list cta then _ else _).
  assert (∃ self2, activation self1 = (self2, Return tt)
                   ∧ heap self2 = heap self1 ∧ _config_file self2 = _config_file self1)
    as (self2 & -> & Hh2 & Hf2).
  { subst activation. destruct (truthy_opt_list cta); [by eexists|].
    destruct act; by eexists. }
  rewrite M_bind_unfold. unfold read at 1. rewrite M_bind_unfold.
  set (reg := if truthy_opt_list ea && __enable_monitoring self2 then _ else _).
  pose (f := λ s : Launcher, (heap s, _config_file s)).
  assert (f (reg self2).1 = f self2) as Hreg.
  { subst reg. destruct (truthy_opt_list ea && __enable_monitoring self2); [|done].
    unfold __rewrite_actions_for_components. apply for_each_frame. intros item s.
    apply for_each_frame. intros a s'. unfold rewrite_action.
    destruct a as [r|a]; [done|]. destruct (component_action a).
    - by case_bool_decide.
    - by destruct (monitor_action a). }
  destruct (reg self2) as [self3 [[]|err]]; [|done].
  simpl in Hreg. injection Hreg as Hh3 Hf3.
  intros Hloop. exists self3. repeat split; [congruence | congruence | done].
Qed.

(** X18.  On a launcher made with a configuration file, a call of
    [add_pkg] that returns normally has configured every component of the
    call with that file, and has touched no component outside the call;
    on a launcher without a file no component is touched. *)
Theorem add_pkg_configures_its_components comps pkg exe ea mp act cta self self' :
  add_pkg comps pkg exe ea mp act cta self = (self', Return tt) →
  (truthy_str (_config_file self) = false → heap self' = heap self)
  ∧ (∀ file, _config_file self = Some file → file ≠ "" →
       (∀ c, c ∈ comps →
          comp_config_file (component_state self' c) = Some file
          ∧ file ∈ comp_configured (component_state self' c))
       ∧ (∀ c, c ∉ comps → component_state self' c = component_state self c)).
Proof.
  intros Hadd.
  destruct (add_pkg_before_configure _ _ _ _ _ _ _ _ _ Hadd) as (self3 & Hh & Hf & Hloop).
  split.
  - intros Hfalse. rewrite configure_loop_without_file in Hloop by (by rewrite Hf).
    injection Hloop as <-. done.
  - intros file Hfile Hne.
    assert (truthy_str (Some file) = true) as Htruthy.
    { simpl. by rewrite bool_decide_eq_false_2. }
    destruct (update_loop (λ s, _config_file s = Some file) (λ _, True)
                (λ _, configured_with file true)
                (λ _ st, comp_config_file st = Some file ∧ file ∈ comp_configured st)
                (λ component,
                   config_file ← read _config_file ;
                   if truthy_str config_file
                   then component_configure component (default "" config_file) true
                   else pass)
                comps) with (s := self3) as (h & Heq & Hother & Hupd).
    { done. }
    { intros c s _ Hs. rewrite M_bind_unfold. unfold read. rewrite Hs, Htruthy.
      by rewrite decide_True. }
    { intros c st. unfold configured_with. simpl. split; [done|].
      apply elem_of_app. right. left. }
    { congruence. }
    rewrite Heq in Hloop. injection Hloop as <-. split.
    + intros c Hc. unfold component_state. simpl. by apply Hupd.
    + intros c Hc. unfold component_state. simpl. rewrite Hother by (by left).
      by rewrite Hh.
Qed.

Lemma add_pkg_configures_its_components_witness :
  comp_config_file (component_state launcher_with_config component_A)
    = Some "params.yaml"
  ∧ "params.yaml" ∈ comp_configured (component_state launcher_with_config component_A).
Proof.
  destruct (add_pkg_configures_its_components [component_A; component_B] None
              (Some "executable") None false true None (init "" (Some "params.yaml") true)
              launcher_with_config) as [_ Hfile].
  - vm_compute. reflexivity.
  - destruct (Hfile "params.yaml") as [Hin _]; [reflexivity | discriminate |].
    apply Hin. left.
Defined.

(** ** Activation on start *)

Lemma activate_fold (self : Launcher) (l : list (BaseComponent * bool))
    (acc : list LaunchEntity) :
  foldl (λ activation_actions item,
           if (item.2 : bool)
           then activation_actions ++ start self (node_name item.1) []
           else activation_actions ++ [MethodLaunchAction item.1 "start"])
        acc l
  = acc ++ (l ≫= λ item,
              if (item.2 : bool) then start self (node_name item.1) []
              else [MethodLaunchAction item.1 "start"]).
Proof.
  revert acc. induction l as [|[c b] l IH]; intros acc; csimpl.
  - by rewrite app_nil_r.
  - rewrite IH. destruct b; by rewrite <- (assoc_L (++)).
Qed.

(** X19.  The activation handler holds one entry per component marked
    for activation, in the order the marks were made: for a component that
    runs in a process the lifecycle transitions of [start], configure then
    activate, and for a component that runs in a thread a call of the
    component's own [start].  So a method is called only on a component
    marked as running in a thread, and the method is [start]; lifecycle
    transitions are asked for the components in processes, and only for
    them. *)
Theorem activate_components_action_entries (self : Launcher) :
  _activate_components_action self
    = activation_entry <$> __components_to_activate_on_start self
  ∧ (∀ c fname,
       MethodLaunchAction c fname ∈ _activate_components_action self
       ↔ fname = "start" ∧ (c, false) ∈ __components_to_activate_on_start self)
  ∧ length (_activate_components_action self)
    = length (__components_to_activate_on_start self)
  ∧ requested_transitions (_activate_components_action self)
    = filter (λ item, item.2 = true) (__components_to_activate_on_start self) ≫= λ item,
        [(node_name item.1, Transition.TRANSITION_CONFIGURE);
         (node_name item.1, Transition.TRANSITION_ACTIVATE)].
Proof.
  assert (_activate_components_action self
          = activation_entry <$> __components_to_activate_on_start self) as Heq.
  { unfold _activate_components_action. rewrite activate_fold. simpl.
    induction (__components_to_activate_on_start self) as [|[c b] l IH]; [done|].
    csimpl. rewrite IH. by destruct b. }
  split; [done|]. split; [|split].
  - intros c fname. rewrite Heq, list_elem_of_fmap. split.
    + intros ([c' b] & Hentry & Hin). unfold activation_entry in Hentry. simpl in Hentry.
      destruct b; [done|]. by injection Hentry as -> ->.
    + intros [-> Hin]. by exists (c, false).
  - by rewrite Heq, length_fmap.
  - clear Heq. unfold _activate_components_action. rewrite activate_fold. simpl.
    induction (__components_to_activate_on_start self) as [|[c b] l IH]; [done|].
    csimpl. rewrite filter_cons. unfold requested_transitions in *.
    destruct b; csimpl; by rewrite IH.
Qed.

(** ** Order of registration and of hand-over *)




